(** * A shallow embedding of [app.py]

    The program is a single Flask view, [get_news], that looks a category
    up in [RSS_FEEDS], fetches the feed with [requests.get], parses it with
    [xml.etree.ElementTree], and asks the Gemini service for tags once per
    article through [chat].

    Python values are embedded as follows.
    - [str] is a sequence of Unicode code points ([list N]); string literals
      of the source are written as Rocq literals and decoded from UTF-8 by
      [py].
    - [None]-or-[str] values (an element's [.text]) are [option str].
    - dicts with a fixed set of keys are records; [RSS_FEEDS] is a [gmap].
    - the outside world (environment variable, HTTP, XML parser, Gemini
      service) is a record of oracles, [World]; every oracle sees the events
      that happened before it is asked, so that two calls with the same
      arguments may answer differently.
    - effects are explicit: a computation reads the history of events,
      emits new events, and either returns or raises. *)

From Stdlib Require Import ZArith NArith QArith Ascii String.
From stdpp Require Import base option list gmap pretty.

Local Open Scope N_scope.

(** ** Python strings *)

Definition str : Type := list N.

Section Utf8.

(** Payload of a UTF-8 continuation byte. *)
Definition cont (b : N) : N := N.land b 63.

Fixpoint utf8_decode (bs : list N) : str :=
  match bs with
  | [] => []
  | b :: r =>
    if b <? 128 then b :: utf8_decode r
    else match r with
    | [] => []
    | b1 :: r1 =>
      if b <? 224 then (N.land b 31 * 64 + cont b1) :: utf8_decode r1
      else match r1 with
      | [] => []
      | b2 :: r2 =>
        if b <? 240
        then (N.land b 15 * 4096 + cont b1 * 64 + cont b2) :: utf8_decode r2
        else match r2 with
        | [] => []
        | b3 :: r3 =>
          (N.land b 7 * 262144 + cont b1 * 4096 + cont b2 * 64 + cont b3)
            :: utf8_decode r3
        end
      end
    end
  end.

Fixpoint bytes_of_string (s : string) : list N :=
  match s with
  | EmptyString => []
  | String a s' => N_of_ascii a :: bytes_of_string s'
  end.

End Utf8.

(** [py "..."] is the Python string written by the literal. *)
Definition py (s : string) : str := utf8_decode (bytes_of_string s).
Arguments py : simpl never.

(** [str.isspace] on one character: the code points CPython's
    [_PyUnicode_IsWhitespace] accepts. These are the characters that
    [str.strip()] removes. *)
Definition isspace (c : N) : bool :=
  ((9 <=? c) && (c <=? 13)) || ((28 <=? c) && (c <=? 32))
  || (c =? 133) || (c =? 160) || (c =? 5760)
  || ((8192 <=? c) && (c <=? 8202))
  || (c =? 8232) || (c =? 8233) || (c =? 8239) || (c =? 8287) || (c =? 12288).

Fixpoint lstrip (s : str) : str :=
  match s with
  | [] => []
  | c :: s' => if isspace c then lstrip s' else s
  end.

Definition rstrip (s : str) : str := reverse (lstrip (reverse s)).

(** [s.strip()] *)
Definition strip (s : str) : str := rstrip (lstrip s).

(** [s.split(sep)] for a one-character separator: one piece more than
    there are separators, [''.split(',') == ['']]. *)
Fixpoint split (sep : N) (s : str) : list str :=
  match s with
  | [] => [[]]
  | c :: s' =>
    if c =? sep then [] :: split sep s'
    else match split sep s' with
         | [] => [[c]]
         | p :: ps => (c :: p) :: ps
         end
  end.

(** [sep.join(pieces)] *)
Fixpoint join (sep : N) (pieces : list str) : str :=
  match pieces with
  | [] => []
  | [p] => p
  | p :: ps => p ++ sep :: join sep ps
  end.

(** Truth value of a string: non-empty. *)
Definition truthy (s : str) : bool :=
  match s with [] => false | _ => true end.

Definition comma : N := 44.

(** Line 48 of [chat]:
    [[t.strip() for t in response.text.split(',') if t.strip()]] *)
Definition parse_tags (text : str) : list str :=
  t ← split comma text; if truthy (strip t) then [strip t] else [].

Local Close Scope N_scope.

(** ** Exceptions, events and the effect monad *)

(** The [except] clauses of the program tell three classes of exceptions
    apart: [requests.exceptions.RequestException], [ET.ParseError], and
    every other subclass of [Exception]. *)
Inductive exn_kind := RequestException | ParseError | OtherException.

(** An exception with its [str(e)]. *)
Record exn := Exn { kind : exn_kind; message : str }.

Inductive result (A : Type) :=
| Ok (a : A)
| Raise (e : exn).
Arguments Ok {A} a.
Arguments Raise {A} e.

(** [types.GenerateContentConfig(...)]; the two sampling parameters are
    Python floats that are only passed through, written as rationals. *)
Record GenerateContentConfig := {
  system_instruction : str;
  max_output_tokens : Z;
  temperature : Q;
  top_p : Q
}.

(** [genai.Client(api_key=...)] *)
Record Client := { api_key : str }.

(** What the program does to the outside world. *)
Inductive event :=
| Print (line : str)
| HttpGet (target : str) (timeout : Z)
| NewClient (c : Client)
| GenerateContent (c : Client) (model : str) (contents : str)
                  (config : GenerateContentConfig).

Definition trace := list event.

(** A computation is run after a history of events; it emits further events
    and returns a value or raises. *)
Definition M (A : Type) : Type := trace → result A * trace.

#[global] Instance M_ret : MRet M := λ A a _, (Ok a, []).

(** The outcome of a continuation that ran after [evs] were emitted. *)
Definition after {A} (evs : trace) (r : result A * trace) : result A * trace :=
  (r.1, evs ++ r.2).

#[global] Instance M_bind : MBind M := λ A B f m h,
  match m h with
  | (Ok a, evs) => after evs (f a (h ++ evs))
  | (Raise e, evs) => (Raise e, evs)
  end.

Definition emit (e : event) : M () := λ _, (Ok (), [e]).

Definition raise {A} (e : exn) : M A := λ _, (Raise e, []).

(** [print(line)] *)
Definition print (line : str) : M () := emit (Print line).

(** [try: body / except ...: handler]. The handler answers [None] for an
    exception no [except] clause matches, which then propagates. *)
Definition try_except {A} (body : M A) (handler : exn → option (M A)) : M A :=
  λ h,
  match body h with
  | (Ok a, evs) => (Ok a, evs)
  | (Raise e, evs) =>
    match handler e with
    | Some k => after evs (k (h ++ evs))
    | None => (Raise e, evs)
    end
  end.

(** ** The libraries the program calls *)

(** An [xml.etree.ElementTree.Element]: tag, [.text] ([None] when the
    element holds no text) and child elements in document order. *)
#[warnings="-register-all"] Inductive Element :=
  Elem (tag : str) (text : option str) (children : list Element).

Definition tag (e : Element) : str := let 'Elem t _ _ := e in t.
Definition text (e : Element) : option str := let 'Elem _ x _ := e in x.
Definition children (e : Element) : list Element := let 'Elem _ _ cs := e in cs.

(** [e.find(name)]: the first child with that tag, or [None]. *)
Definition find (name : str) (e : Element) : option Element :=
  List.find (λ c, bool_decide (tag c = name)) (children e).

(** [e.iter(name)]: the element and its descendants with that tag, in
    document order. *)
Fixpoint iter (name : str) (e : Element) : list Element :=
  let 'Elem t _ cs := e in
  (if bool_decide (t = name) then [e] else [])
  ++ (fix over (cs : list Element) : list Element :=
        match cs with
        | [] => []
        | c :: cs' => iter name c ++ over cs'
        end) cs.

(** [e.findall('.//' + name)]: every descendant with that tag, at any
    depth, in document order; the element itself is not a candidate. *)
Definition findall_descendants (name : str) (e : Element) : list Element :=
  c ← children e; iter name c.

(** A [requests.Response], as far as the program and [raise_for_status]
    look at it. *)
Record Response := {
  status_code : Z;
  reason : str;
  url : str;
  content : list N
}.

(** The answer of [generate_content]: reading [.text] gives a string or
    [None], or raises. *)
Record GenerateContentResponse := { response_text : result (option str) }.

(** The outside world. *)
Record World := {
  (** [os.getenv('GEMINI_API_KEY')] at start-up *)
  GEMINI_API_KEY : option str;
  (** [requests.get(url, timeout=...)]: a response, or the message of a
      [RequestException] (timeout, connection failure, ...) *)
  requests_get : trace → str → Z → str + Response;
  (** [ET.fromstring(content)]: the root element, or the exception the
      parser raises: a [ParseError] for a document that is not well formed,
      but also a [ValueError] for a multi-byte encoding or a [LookupError]
      for an unknown one, which are other exceptions *)
  ET_fromstring : list N → exn + Element;
  (** [client.models.generate_content(model=..., contents=..., config=...)]:
      a response, or any exception *)
  generate_content :
    trace → Client → str → str → GenerateContentConfig →
    exn + GenerateContentResponse
}.

(** The three calls, as computations: each emits its event where it
    reaches the network and returns or raises what the world answers. *)
Definition get (w : World) (target : str) (timeout : Z) : M Response :=
  λ h,
  match requests_get w h target timeout with
  | inl msg => (Raise (Exn RequestException msg), [HttpGet target timeout])
  | inr r => (Ok r, [HttpGet target timeout])
  end.

Definition fromstring (w : World) (data : list N) : M Element :=
  match ET_fromstring w data with
  | inl e => raise e
  | inr root => mret root
  end.

Definition models_generate_content (w : World) (c : Client)
    (model contents : str) (config : GenerateContentConfig)
  : M GenerateContentResponse :=
  λ h,
  match generate_content w h c model contents config with
  | inl e => (Raise e, [GenerateContent c model contents config])
  | inr r => (Ok r, [GenerateContent c model contents config])
  end.

(** [Response.raise_for_status()] of the requests library: raises
    [HTTPError], a [RequestException], for a status in 400..599 and does
    nothing for any other status. [http_error r] is the message of the
    error, when there is one. *)
Definition http_error (r : Response) : option str :=
  let line (what : string) :=
    py (pretty (status_code r)) ++ py what ++ reason r
    ++ py " for url: " ++ url r in
  if bool_decide (400 ≤ status_code r < 500)%Z
  then Some (line " Client Error: ")
  else if bool_decide (500 ≤ status_code r < 600)%Z
  then Some (line " Server Error: ")
  else None.

Definition raise_for_status (r : Response) : M () :=
  match http_error r with
  | Some msg => raise (Exn RequestException msg)
  | None => mret ()
  end.

(** ** Gemini API functions *)

Record Message := { author : str; message_content : str }.

(** The dict built by [generate_request_prompt]. *)
Record RequestPrompt := {
  context : str;
  maxOutputTokens : Z;
  messages : list Message;
  prompt_temperature : Q;
  topP : Q
}.

Definition generate_request_prompt (prompt content : str) (tmp p : Q)
  : RequestPrompt :=
  {| context := prompt;
     maxOutputTokens := 1024;
     messages := [ {| author := py "user"; message_content := content |} ];
     prompt_temperature := tmp;
     topP := p |}.

(** [not GEMINI_API_KEY]: the variable is unset or empty. *)
Definition key_missing (k : option str) : bool :=
  match k with
  | None => true
  | Some s => negb (truthy s)
  end.

(** [l[0]] *)
Definition first_item {A} (l : list A) : M A :=
  match l with
  | x :: _ => mret x
  | [] => raise (Exn OtherException (py "list index out of range"))
  end.

(** [response.text.split(',')] and the comprehension around it; [None] has
    no [split] attribute. *)
Definition tags_of_response (r : GenerateContentResponse) : M (list str) :=
  match response_text r with
  | Raise e => raise e
  | Ok None =>
    raise (Exn OtherException
             (py "'NoneType' object has no attribute 'split'"))
  | Ok (Some raw) => mret (parse_tags raw)
  end.

(** The two lines [chat] prints. *)
Definition no_key_line : str :=
  py "エラー: GEMINI_API_KEYが設定されていません。".

Definition api_error_line (e : exn) : str :=
  py "Gemini API呼び出し中にエラーが発生しました: " ++ message e.

(** [chat]. Making the client and the configuration builds two values: for
    a key that is set it reaches nothing outside and raises nothing. Both,
    like the indexing of the prompt, stand before the [try]. *)
Definition chat (w : World) (request_prompt : RequestPrompt) : M (list str) :=
  if key_missing (GEMINI_API_KEY w) then
    print no_key_line;;
    mret []
  else
    let client := {| api_key := default [] (GEMINI_API_KEY w) |} in
    emit (NewClient client);;
    m ← first_item (messages request_prompt);
    let content_string := message_content m in
    let config :=
      {| system_instruction := context request_prompt;
         max_output_tokens := maxOutputTokens request_prompt;
         temperature := prompt_temperature request_prompt;
         top_p := topP request_prompt |} in
    try_except
      (response ← models_generate_content w client (py "gemini-2.5-flash")
                    content_string config;
       tags ← tags_of_response response;
       mret tags)
      (λ e, Some (
         print (api_error_line e);;
         mret [])).


(** ** RSS feed URLs *)

Definition RSS_FEEDS : gmap str str :=
  list_to_map [
    (py "テクノロジー",
     py "https://news.google.com/rss/headlines/section/topic/TECHNOLOGY?hl=ja&gl=JP&ceid=JP:ja");
    (py "経済",
     py "https://news.google.com/rss/headlines/section/topic/BUSINESS?hl=ja&gl=JP&ceid=JP:ja");
    (py "スポーツ",
     py "https://news.google.com/rss/headlines/section/topic/SPORTS?hl=ja&gl=JP&ceid=JP:ja");
    (py "国際",
     py "https://news.google.com/rss/headlines/section/topic/WORLD?hl=ja&gl=JP&ceid=JP:ja")
  ].

(** ** The view *)

(** JSON documents, as [jsonify] produces them. *)
#[warnings="-register-all"] Inductive json :=
| JNull
| JInt (n : Z)
| JString (s : str)
| JArray (items : list json)
| JObject (members : list (str * json)).

(** One entry of [news_list]. The three texts are [None] or a string. *)
Record Article := {
  id : nat;
  title : option str;
  link : option str;
  description : option str;
  tags : list str
}.

Definition json_of_text (o : option str) : json :=
  match o with
  | None => JNull
  | Some s => JString s
  end.

Definition json_of_article (a : Article) : json :=
  JObject [
    (py "id", JInt (Z.of_nat (id a)));
    (py "title", json_of_text (title a));
    (py "link", json_of_text (link a));
    (py "description", json_of_text (description a));
    (py "tags", JArray (JString <$> tags a))
  ].

(** [jsonify({"error": msg})] *)
Definition json_error (msg : str) : json := JObject [(py "error", JString msg)].

(** A view returns a body and a status; [return jsonify(x)] alone has
    status 200. *)
Definition HttpResponse : Type := json * Z.

(** [{x}] inside an f-string for a value that is [None] or a string. *)
Definition fmt (o : option str) : str := default (py "None") o.

Definition system_prompt : str := py "
                # 命令
                提供されたニュース記事の内容を分析し、記事を最もよく表すタグを5つ程度、日本語で生成してください。
                # 制約条件
                必ず「,（カンマ）」区切りで、タグ名のみを出力してください。
                タグには「#」を付けないでください。
                # 出力形式例
                テクノロジー,AI,新製品,モバイル,ニュース
            ".

(** [enumerate(l)] *)
Definition enumerate {A} (l : list A) : list (nat * A) :=
  zip (seq 0 (length l)) l.

(** [e.text if e is not None else fallback], with [e] the result of a
    [find]. *)
Definition text_or (e : option Element) (fallback : option str) : option str :=
  match e with
  | Some e => text e
  | None => fallback
  end.

(** The [for i, item in enumerate(...)] loop of [get_news], lines 108-144;
    [news_list] is the list built so far. *)
Fixpoint news_loop (w : World) (items : list (nat * Element))
    (news_list : list Article) : M (list Article) :=
  match items with
  | [] => mret news_list
  | (i, item) :: rest =>
    if bool_decide (15 ≤ length news_list) then mret news_list
    else
      let title := text_or (find (py "title") item) (Some (py "No Title")) in
      let link := text_or (find (py "link") item) (Some (py "#")) in
      let description_element := find (py "description") item in
      let description := text_or description_element title in
      let news_content :=
        py "記事のタイトル: " ++ fmt title ++ [10%N]
        ++ py "記事の概要: " ++ fmt description in
      let request_prompt :=
        generate_request_prompt system_prompt news_content (1 # 2) 1 in
      tags ← chat w request_prompt;
      let news_list :=
        news_list ++ [ {| id := i; title := title; link := link;
                          description := description; tags := tags |} ] in
      print (py "Processed article " ++ py (pretty (i + 1)) ++ py ": "
             ++ fmt title);;
      news_loop w rest news_list
  end.

(** The line printed before the feed is fetched. *)
Definition fetching (category feed_url : str) : str :=
  py "Fetching news for category: " ++ category ++ py " from " ++ feed_url.

(** The warning printed when fewer than ten articles were obtained. *)
Definition shortfall (n : nat) : str :=
  py "警告: 取得できた記事は" ++ py (pretty n)
  ++ py "件でした。最低10件の要件を満たしていません。".

Definition get_news (w : World) (category : str) : M HttpResponse :=
  match RSS_FEEDS !! category with
  | None => mret (json_error (py "Invalid category"), 400%Z)
  | Some feed_url =>
    if negb (truthy feed_url)
    then mret (json_error (py "Invalid category"), 400%Z)
    else
      print (fetching category feed_url);;
      try_except
        (response ← get w feed_url 15;
         raise_for_status response;;
         root ← fromstring w (content response);
         news_list ←
           news_loop w (enumerate (findall_descendants (py "item") root)) [];
         (if bool_decide (length news_list < 10)
          then print (shortfall (length news_list))
          else mret ());;
         mret (JArray (json_of_article <$> news_list), 200%Z))
        (λ e,
          match kind e with
          | RequestException => Some (
              print (py "RSS取得中にエラーが発生しました: " ++ message e);;
              mret (json_error (py "Failed to fetch RSS feed: " ++ message e),
                    500%Z))
          | ParseError => Some (
              print (py "XMLパースエラー: " ++ message e);;
              mret (json_error (py "Failed to parse RSS feed: " ++ message e),
                    500%Z))
          | OtherException => None
          end)
  end.

(** ** Notions used to state the properties *)

(** Every character is whitespace. *)
Definition all_space (s : str) : Prop := Forall (λ c, isspace c = true) s.

(** Neither the first nor the last character is whitespace. *)
Definition trimmed (s : str) : Prop :=
  (∀ c, head s = Some c → isspace c = false)
  ∧ (∀ c, last s = Some c → isspace c = false).

(** The event is a call into the Gemini client library. *)
Definition is_genai (e : event) : bool :=
  match e with
  | NewClient _ | GenerateContent _ _ _ _ => true
  | _ => false
  end.

(** The event is an HTTP request for a feed. *)
Definition is_fetch (e : event) : bool :=
  match e with
  | HttpGet _ _ => true
  | _ => false
  end.

(** [o[key]] for a JSON object. *)
Definition member (key : string) (j : json) : option json :=
  match j with
  | JObject ms => snd <$> List.find (λ m, bool_decide (m.1 = py key)) ms
  | _ => None
  end.

(** The article the loop builds from the [i]-th [item] element, whatever
    its tags. *)
Definition article_for (p : nat * Element) (a : Article) : Prop :=
  id a = p.1
  ∧ title a = text_or (find (py "title") p.2) (Some (py "No Title"))
  ∧ link a = text_or (find (py "link") p.2) (Some (py "#"))
  ∧ description a = text_or (find (py "description") p.2) (title a).

(** The [item] elements of a feed, as the loop enumerates them. *)
Definition feed_items (root : Element) : list (nat * Element) :=
  enumerate (findall_descendants (py "item") root).

(** The keys of [RSS_FEEDS]. *)
Definition categories : list str :=
  [py "テクノロジー"; py "経済"; py "スポーツ"; py "国際"].

(** The history at the moment [get_news], started after [h], asks for the
    feed. *)
Definition at_fetch (h : trace) (category feed_url : str) : trace :=
  h ++ [Print (fetching category feed_url)].

(** A request for [category], started after [h], gets the feed and parses
    it to [root]: the category is known, [requests.get] returns a response,
    [raise_for_status] lets it pass, and [ET.fromstring] returns [root]. *)
Definition feed_parsed (w : World) (h : trace) (category : str)
    (root : Element) : Prop :=
  ∃ feed_url resp,
    RSS_FEEDS !! category = Some feed_url
    ∧ requests_get w (at_fetch h category feed_url) feed_url 15 = inr resp
    ∧ http_error resp = None
    ∧ ET_fromstring w (content resp) = inr root.

(** ** Sample feeds and worlds *)

(** An element holding text only. *)
Definition leaf (name body : string) : Element :=
  Elem (py name) (Some (py body)) [].

(** An element without text or children, as [<title/>]. *)
Definition hollow (name : string) : Element := Elem (py name) None [].

(** A complete [item]. *)
Definition full_item (n : nat) : Element :=
  Elem (py "item") None
    [ Elem (py "title") (Some (py "headline " ++ py (pretty n))) [];
      leaf "link" "https://example.org/story";
      leaf "description" "summary" ].

Definition channel (items : list Element) : Element :=
  Elem (py "rss") None
    [ Elem (py "channel") None (leaf "title" "Top stories" :: items) ].

(** Sixteen complete items. *)
Definition long_feed : Element := channel (full_item <$> seq 0 16).

(** A complete item; an item without children; an item whose children hold
    no text; an item with a title only. *)
Definition ragged_feed : Element :=
  channel
    [ full_item 0;
      Elem (py "item") None [];
      Elem (py "item") None [hollow "title"; hollow "link"; hollow "description"];
      Elem (py "item") None [leaf "title" "only a title"] ].

Definition ok_response (target : str) : Response :=
  {| status_code := 200; reason := py "OK"; url := target; content := [] |}.

(** A world whose oracles answer the same whatever happened before:
    [fetch] is what [requests.get] does with the address, [parse] what
    [ET.fromstring] does, [answer] what the service does. *)
Definition fixed_world (key : option str) (fetch : str → str + Response)
    (parse : exn + Element) (answer : exn + GenerateContentResponse) : World :=
  {| GEMINI_API_KEY := key;
     requests_get := λ _ target _, fetch target;
     ET_fromstring := λ _, parse;
     generate_content := λ _ _ _ _ _, answer |}.

(** The service answers with the text of the example. *)
Definition tagging : exn + GenerateContentResponse :=
  inr {| response_text := Ok (Some (py "テクノロジー, AI ,新製品,")) |}.

(** The service cannot be reached. *)
Definition unreachable : exn + GenerateContentResponse :=
  inl (Exn OtherException (py "503 UNAVAILABLE")).

(** The service answers without text. *)
Definition speechless : exn + GenerateContentResponse :=
  inr {| response_text := Ok None |}.


Definition not_found (target : str) : Response :=
  {| status_code := 404; reason := py "Not Found"; url := target;
     content := [] |}.

(** The address registered for the category of the sample requests. *)
Definition business_feed : str :=
  py "https://news.google.com/rss/headlines/section/topic/BUSINESS?hl=ja&gl=JP&ceid=JP:ja".




(** ** The script entry point and further notions *)

(** What running the file as a script leads to: the development server,
    or a complaint. *)
Inductive startup :=
| Serve (debug : bool) (port : Z)
| Complain (line : str).

(** The [if __name__ == '__main__':] block, lines 159-165. *)
Definition main (w : World) : startup :=
  if key_missing (GEMINI_API_KEY w)
  then Complain (py "エラー: 実行前に GEMINI_API_KEY 環境変数を設定してください。")
  else Serve true 5000.

(** The text sent to the service for a title and a description, line
    121, and for the article that holds them. *)
Definition prompt_text (title description : option str) : str :=
  py "記事のタイトル: " ++ fmt title ++ [10%N]
  ++ py "記事の概要: " ++ fmt description.

Definition news_content (a : Article) : str :=
  prompt_text (title a) (description a).

(** The configuration [chat] builds from the prompt of [get_news]. *)
Definition request_config : GenerateContentConfig :=
  {| system_instruction := system_prompt; max_output_tokens := 1024;
     temperature := (1 # 2); top_p := 1 |}.

(** What [chat] does to the client library for one article, under the
    key [k]. *)
Definition calls_for (k : str) (a : Article) : list event :=
  [ NewClient {| api_key := k |};
    GenerateContent {| api_key := k |} (py "gemini-2.5-flash")
      (news_content a) request_config ].

(** The tags [chat] makes of an answer of the service. *)
Definition tags_from (answer : exn + GenerateContentResponse) : list str :=
  match answer with
  | inl _ => []
  | inr r =>
    match response_text r with
    | Ok (Some raw) => parse_tags raw
    | _ => []
    end
  end.

(** The event is a request to the service. *)
Definition is_generate (e : event) : bool :=
  match e with
  | GenerateContent _ _ _ _ => true
  | _ => false
  end.

(** A tag as the parser leaves it: not empty, without a comma, without
    whitespace at either end. *)
Definition good_tag (t : str) : Prop :=
  t ≠ [] ∧ (comma ∉ t) ∧ trimmed t.

(** A JSON array of strings that are good tags. *)
Definition good_tags (j : json) : Prop :=
  ∃ ts, j = JArray (JString <$> ts) ∧ Forall good_tag ts.

(** A service that answers with the text of the example to its first,
    third, fifth request of a run, and cannot be reached for the others. *)
Definition alternating_world (root : Element) : World :=
  {| GEMINI_API_KEY := Some (py "key");
     requests_get := λ _ target _, inr (ok_response target);
     ET_fromstring := λ _, inr root;
     generate_content := λ h _ _ _ _,
       if Nat.even (length (List.filter is_generate h))
       then tagging else unreachable |}.


(** * Properties *)

Example py_ascii : py "AI" = [65; 73]%N.
Proof. reflexivity. Qed.

Example py_kana : py "テク" = [12486; 12463]%N.
Proof. reflexivity. Qed.

Example split_empty : split comma [] = [[]].
Proof. reflexivity. Qed.

Example strip_ideographic_space :
  strip (12288%N :: py " AI " ++ [10%N]) = py "AI".
Proof. reflexivity. Qed.

(** [findall('.//item')] walks the tree in document order: an [item] inside
    an [item] follows its parent, and the root is never a candidate. *)
Example findall_document_order :
  let inner := Elem (py "item") (Some (py "b")) [] in
  let outer := Elem (py "item") (Some (py "a")) [leaf "title" "t"; inner] in
  let other := Elem (py "item") (Some (py "c")) [] in
  findall_descendants (py "item")
    (Elem (py "item") None [Elem (py "channel") None [outer]; other])
  = [outer; inner; other].
Proof. by vm_compute. Qed.

Example parse_tags_example :
  parse_tags (py "テクノロジー, AI ,新製品,") = [py "テクノロジー"; py "AI"; py "新製品"].
Proof. vm_compute. reflexivity. Qed.

(** ** Strings *)

Section Strings.

Implicit Types (s p : str) (c sep : N).

Lemma split_nonempty sep s : split sep s ≠ [].
Proof.
  destruct s as [|c s]; simpl; [done|].
  destruct (c =? sep)%N; [done|]. by destruct (split sep s).
Qed.

(** Joining the pieces with the separator gives the string back. *)
Lemma join_split sep s : join sep (split sep s) = s.
Proof.
  induction s as [|c s IH]; simpl; [done|].
  destruct (N.eqb_spec c sep) as [->|Hne].
  - pose proof (split_nonempty sep s) as Hs.
    destruct (split sep s) as [|p ps]; [done|].
    simpl in *. by rewrite IH.
  - pose proof (split_nonempty sep s) as Hs.
    destruct (split sep s) as [|p ps]; [done|].
    destruct ps as [|q ps]; simpl in *; by rewrite IH.
Qed.

(** No piece holds the separator. *)
Lemma split_no_sep sep s : Forall (λ p, sep ∉ p) (split sep s).
Proof.
  induction s as [|c s IH]; simpl.
  - repeat constructor. by intros ?%elem_of_nil.
  - destruct (N.eqb_spec c sep) as [->|Hne].
    + constructor; [by intros ?%elem_of_nil | done].
    + destruct (split sep s) as [|p ps] eqn:E; [by apply split_nonempty in E|].
      inversion_clear IH as [|? ? Hp Hps]. constructor; [|done].
      intros [?|?]%elem_of_cons; [congruence | done].
Qed.

Lemma lstrip_spec s :
  ∃ l, s = l ++ lstrip s ∧ all_space l
       ∧ ∀ c, head (lstrip s) = Some c → isspace c = false.
Proof.
  induction s as [|c s (l & Hl & Hsp & Hhd)]; simpl.
  - exists []. split_and!; [done | constructor | done].
  - destruct (isspace c) eqn:Hc.
    + exists (c :: l). split_and!; [simpl; by f_equal | by constructor | done].
    + exists []. split_and!; [done | constructor |].
      simpl. by intros ? [= <-].
Qed.

Lemma lstrip_last s c :
  last (lstrip s) = Some c → last s = Some c.
Proof.
  destruct (lstrip_spec s) as (l & Hl & _). intros H.
  rewrite Hl. destruct (lstrip s) as [|x r] eqn:E; [done|].
  by rewrite last_app, H.
Qed.

(** [strip] removes whitespace, and only whitespace, from both ends. *)
Lemma strip_spec s :
  ∃ l r, s = l ++ strip s ++ r ∧ all_space l ∧ all_space r
         ∧ trimmed (strip s).
Proof.
  destruct (lstrip_spec s) as (l & Hl & Hsl & Hhd).
  unfold strip, rstrip.
  destruct (lstrip_spec (reverse (lstrip s))) as (r & Hr & Hsr & Hlast).
  exists l, (reverse r). split_and!.
  - rewrite <- reverse_app, <- Hr, reverse_involutive. exact Hl.
  - done.
  - unfold all_space. by rewrite Forall_reverse.
  - split.
    + intros c Hc. apply Hhd.
      rewrite head_reverse in Hc.
      apply lstrip_last in Hc. by rewrite last_reverse in Hc.
    + intros c Hc. apply Hlast. by rewrite last_reverse in Hc.
Qed.

(** The comprehension keeps the stripped pieces that are not empty, in
    the order of the pieces. *)
Lemma parse_tags_filter s :
  parse_tags s = filter (λ t, t ≠ []) (strip <$> split comma s).
Proof.
  unfold parse_tags. induction (split comma s) as [|p ps IH]; [done|].
  rewrite fmap_cons, filter_cons. cbn [mbind list_bind]. rewrite IH.
  by destruct (strip p).
Qed.

End Strings.

(** ** The effect monad *)

Section Effects.

Context {A B : Type}.
Implicit Types (m : M A) (f : A → M B) (h evs : trace).

Lemma after_pair (r : result A) evs evs' :
  after evs (r, evs') = (r, evs ++ evs').
Proof. reflexivity. Qed.

Lemma mret_run (a : A) h : mret (M := M) a h = (Ok a, []).
Proof. reflexivity. Qed.

Lemma raise_run (e : exn) h : raise (A := A) e h = (Raise e, []).
Proof. reflexivity. Qed.

Lemma bind_ok m f h a evs :
  m h = (Ok a, evs) → (m ≫= f) h = after evs (f a (h ++ evs)).
Proof. intros H. unfold mbind, M_bind. by rewrite H. Qed.

Lemma bind_raise m f h e evs :
  m h = (Raise e, evs) → (m ≫= f) h = (Raise e, evs).
Proof. intros H. unfold mbind, M_bind. by rewrite H. Qed.

Lemma try_ok m (handler : exn → option (M A)) h a evs :
  m h = (Ok a, evs) → try_except m handler h = (Ok a, evs).
Proof. intros H. unfold try_except. by rewrite H. Qed.

Lemma try_caught m (handler : exn → option (M A)) k h e evs :
  m h = (Raise e, evs) → handler e = Some k →
  try_except m handler h = after evs (k (h ++ evs)).
Proof. intros H Hk. unfold try_except. by rewrite H, Hk. Qed.

Lemma try_escapes m (handler : exn → option (M A)) h e evs :
  m h = (Raise e, evs) → handler e = None →
  try_except m handler h = (Raise e, evs).
Proof. intros H Hk. unfold try_except. by rewrite H, Hk. Qed.

End Effects.

Lemma emit_run e h : emit e h = (Ok (), [e]).
Proof. reflexivity. Qed.

Lemma print_run line h : print line h = (Ok (), [Print line]).
Proof. reflexivity. Qed.

Lemma print_if_run (b : bool) line h :
  (if b then print line else mret ()) h
  = (Ok (), if b then [Print line] else []).
Proof. by destruct b. Qed.

(** Run the first computation of a sequence whose outcome is known. *)
Ltac run_known :=
  first [ apply emit_run | apply print_run | apply mret_run | apply raise_run
        | apply print_if_run | eassumption ].

Ltac run :=
  repeat first
    [ erewrite bind_ok by run_known
    | erewrite bind_raise by run_known
    | rewrite after_pair
    | rewrite app_nil_r
    | rewrite mret_run
    | rewrite print_run ].

(** ** The tag generator *)

Section Chat.

Variable w : World.
Implicit Types (rp : RequestPrompt) (h evs : trace).

Lemma chat_no_key rp h :
  key_missing (GEMINI_API_KEY w) = true →
  chat w rp h = (Ok [], [Print no_key_line]).
Proof. intros H. unfold chat. rewrite H. by run. Qed.

Lemma generate_run c model contents config h :
  models_generate_content w c model contents config h =
  (match generate_content w h c model contents config with
   | inl e => Raise e
   | inr r => Ok r
   end, [GenerateContent c model contents config]).
Proof.
  unfold models_generate_content.
  by destruct (generate_content w h c model contents config).
Qed.

(** With a key, [chat] asks the service once and is decided by its
    answer. *)
Lemma chat_with_key rp m ms h k :
  GEMINI_API_KEY w = Some k → truthy k = true →
  messages rp = m :: ms →
  let client := {| api_key := k |} in
  let config :=
    {| system_instruction := context rp;
       max_output_tokens := maxOutputTokens rp;
       temperature := prompt_temperature rp;
       top_p := topP rp |} in
  let call :=
    GenerateContent client (py "gemini-2.5-flash") (message_content m)
      config in
  chat w rp h =
  match generate_content w (h ++ [NewClient client]) client
          (py "gemini-2.5-flash") (message_content m) config with
  | inl e => (Ok [], [NewClient client; call; Print (api_error_line e)])
  | inr r =>
    match response_text r with
    | Raise e => (Ok [], [NewClient client; call; Print (api_error_line e)])
    | Ok None =>
      (Ok [], [NewClient client; call;
               Print (api_error_line
                 (Exn OtherException
                    (py "'NoneType' object has no attribute 'split'")))])
    | Ok (Some raw) => (Ok (parse_tags raw), [NewClient client; call])
    end
  end.
Proof.
  intros Hk Ht Hm client config call. unfold chat.
  rewrite Hk, Hm. cbn [key_missing default]. rewrite Ht.
  cbn [negb first_item]. change (Datatypes.id k) with k.
  fold client config.
  run.
  pose proof (generate_run client (py "gemini-2.5-flash")
                (message_content m) config (h ++ [NewClient client])) as Hg.
  destruct (generate_content w (h ++ [NewClient client]) client _ _ config)
    as [e|r].
  - erewrite try_caught; [|by erewrite bind_raise by exact Hg|done].
    by run.
  - assert (∀ x, tags_of_response r x
                 = match response_text r with
                   | Ok (Some raw) => (Ok (parse_tags raw), [])
                   | Ok None =>
                     (Raise (Exn OtherException
                        (py "'NoneType' object has no attribute 'split'")),
                      [])
                   | Raise e => (Raise e, [])
                   end) as Ht'.
    { intros x. unfold tags_of_response.
      by destruct (response_text r) as [[raw|]|e]. }
    destruct (response_text r) as [[raw|]|e].
    + erewrite try_ok; cycle 1.
      { erewrite bind_ok by exact Hg. erewrite bind_ok by apply Ht'.
        run. reflexivity. }
      by run.
    + erewrite try_caught; [| |done]; cycle 1.
      { erewrite bind_ok by exact Hg. erewrite bind_raise by apply Ht'.
        run. reflexivity. }
      by run.
    + erewrite try_caught; [| |done]; cycle 1.
      { erewrite bind_ok by exact Hg. erewrite bind_raise by apply Ht'.
        run. reflexivity. }
      by run.
Qed.

End Chat.

(** ** The enrichment loop *)

Section Loop.

Variable w : World.
Implicit Types (h evs : trace) (acc : list Article).

(** [chat] always returns on a prompt that has a message; it never
    fetches a feed; without a key it returns no tag and stays away from
    the client library. *)
Lemma chat_outcome rp h :
  messages rp ≠ [] →
  ∃ tags evs,
    chat w rp h = (Ok tags, evs)
    ∧ Forall (λ e, is_fetch e = false) evs
    ∧ (key_missing (GEMINI_API_KEY w) = true →
       tags = [] ∧ Forall (λ e, is_genai e = false) evs).
Proof.
  intros Hm. destruct (key_missing (GEMINI_API_KEY w)) eqn:Hk.
  - exists [], [Print no_key_line]. rewrite chat_no_key by done.
    split_and!; [done | by repeat constructor |].
    intros _. split; [done | by repeat constructor].
  - destruct (GEMINI_API_KEY w) as [k|] eqn:Hw; [|done].
    apply negb_false_iff in Hk.
    destruct (messages rp) as [|m ms] eqn:Hms; [done|].
    rewrite (chat_with_key w rp m ms h k Hw Hk Hms).
    destruct (generate_content _ _ _ _ _ _) as [e|r];
      [|destruct (response_text r) as [[raw|]|e]];
      eexists _, _; (split_and!; [reflexivity | by repeat constructor | done]).
Qed.

Lemma news_loop_spec items acc h :
  ∃ arts evs,
    news_loop w items acc h = (Ok (acc ++ arts), evs)
    ∧ Forall2 article_for (take (15 - length acc) items) arts
    ∧ Forall (λ e, is_fetch e = false) evs
    ∧ (key_missing (GEMINI_API_KEY w) = true →
       Forall (λ a, tags a = []) arts
       ∧ Forall (λ e, is_genai e = false) evs).
Proof.
  revert acc h. induction items as [|[i item] rest IH]; intros acc h.
  - exists [], []. rewrite app_nil_r, take_nil. by split_and!.
  - cbn [news_loop]. case_bool_decide as Hfull.
    + exists [], []. rewrite app_nil_r.
      replace (15 - length acc) with 0 by lia. by split_and!.
    + set (title := text_or (find (py "title") item) (Some (py "No Title"))).
      set (link := text_or (find (py "link") item) (Some (py "#"))).
      set (description := text_or (find (py "description") item) title).
      set (rp := generate_request_prompt _ _ _ _).
      destruct (chat_outcome rp h) as (tags & evs1 & Hchat & Hf1 & Hk1);
        [done|].
      set (a := {| id := i; title := title; link := link;
                   description := description; tags := tags |}).
      destruct (IH (acc ++ [a])
                  (h ++ evs1 ++ [Print (py "Processed article "
                     ++ py (pretty (i + 1)) ++ py ": " ++ fmt title)]))
        as (arts & evs2 & Hloop & Harts & Hf2 & Hk2).
      exists (a :: arts), (evs1 ++ Print (py "Processed article "
                     ++ py (pretty (i + 1)) ++ py ": " ++ fmt title) :: evs2).
      split_and!.
      * erewrite bind_ok by exact Hchat. fold a.
        erewrite bind_ok by apply print_run.
        rewrite <- (assoc_L (++)), Hloop, !after_pair.
        by rewrite <- (assoc_L (++)).
      * rewrite length_app in Harts. simpl in Harts.
        replace (15 - length acc) with (S (15 - (length acc + 1))) by lia.
        rewrite firstn_cons. by constructor.
      * apply Forall_app. split; [done|]. by constructor.
      * intros Hk. destruct (Hk1 Hk) as [-> Hg1].
        destruct (Hk2 Hk) as [Ht2 Hg2]. split.
        -- by constructor.
        -- apply Forall_app. split; [done|]. by constructor.
Qed.

End Loop.

(** ** The feed registry *)

Lemma RSS_FEEDS_unknown category :
  category ∉ categories → RSS_FEEDS !! category = None.
Proof. intros H. by apply not_elem_of_list_to_map_1. Qed.

Lemma RSS_FEEDS_known category feed_url :
  RSS_FEEDS !! category = Some feed_url →
  category ∈ categories ∧ truthy feed_url = true.
Proof.
  intros H%elem_of_list_to_map_2.
  repeat (apply elem_of_cons in H as [[= -> ->]|H];
          [split; [set_solver | by vm_compute]|]).
  by apply elem_of_nil in H.
Qed.

(** ** The view, path by path *)


Section View.

Variables (w : World) (category feed_url : str) (h : trace).
Hypothesis known : RSS_FEEDS !! category = Some feed_url.

Lemma get_run :
  get w feed_url 15 (at_fetch h category feed_url) =
  (match requests_get w (at_fetch h category feed_url) feed_url 15 with
   | inl msg => Raise (Exn RequestException msg)
   | inr r => Ok r
   end, [HttpGet feed_url 15]).
Proof.
  unfold get.
  by destruct (requests_get w (at_fetch h category feed_url) feed_url 15).
Qed.

Ltac enter :=
  unfold get_news; rewrite known;
  rewrite (proj2 (RSS_FEEDS_known _ _ known)); cbn [negb];
  erewrite bind_ok by apply print_run; fold (at_fetch h category feed_url).

Lemma get_news_fetch_raises msg :
  requests_get w (at_fetch h category feed_url) feed_url 15 = inl msg →
  get_news w category h =
  (Ok (json_error (py "Failed to fetch RSS feed: " ++ msg), 500%Z),
   [Print (fetching category feed_url); HttpGet feed_url 15;
    Print (py "RSS取得中にエラーが発生しました: " ++ msg)]).
Proof.
  intros Hget. enter. pose proof get_run as Hrun. rewrite Hget in Hrun.
  erewrite try_caught; cycle 1.
  { by erewrite bind_raise by exact Hrun. }
  { reflexivity. }
  by run.
Qed.

Lemma get_news_http_error resp msg :
  requests_get w (at_fetch h category feed_url) feed_url 15 = inr resp →
  http_error resp = Some msg →
  get_news w category h =
  (Ok (json_error (py "Failed to fetch RSS feed: " ++ msg), 500%Z),
   [Print (fetching category feed_url); HttpGet feed_url 15;
    Print (py "RSS取得中にエラーが発生しました: " ++ msg)]).
Proof.
  intros Hget Herr. enter. pose proof get_run as Hrun.
  rewrite Hget in Hrun.
  erewrite try_caught; cycle 1.
  { erewrite bind_ok by exact Hrun. unfold raise_for_status.
    rewrite Herr. run. reflexivity. }
  { reflexivity. }
  by run.
Qed.

Lemma get_news_parse_error resp e :
  requests_get w (at_fetch h category feed_url) feed_url 15 = inr resp →
  http_error resp = None →
  ET_fromstring w (content resp) = inl e →
  kind e = ParseError →
  get_news w category h =
  (Ok (json_error (py "Failed to parse RSS feed: " ++ message e), 500%Z),
   [Print (fetching category feed_url); HttpGet feed_url 15;
    Print (py "XMLパースエラー: " ++ message e)]).
Proof.
  intros Hget Herr Hparse Hkind. enter. pose proof get_run as Hrun.
  rewrite Hget in Hrun.
  erewrite try_caught; cycle 1.
  { erewrite bind_ok by exact Hrun. unfold raise_for_status, fromstring.
    rewrite Herr, Hparse. run. reflexivity. }
  { by rewrite Hkind. }
  by run.
Qed.

(** A [RequestException] out of the parser would meet the first [except]
    clause. *)
Lemma get_news_parse_taken_for_fetch resp e :
  requests_get w (at_fetch h category feed_url) feed_url 15 = inr resp →
  http_error resp = None →
  ET_fromstring w (content resp) = inl e →
  kind e = RequestException →
  get_news w category h =
  (Ok (json_error (py "Failed to fetch RSS feed: " ++ message e), 500%Z),
   [Print (fetching category feed_url); HttpGet feed_url 15;
    Print (py "RSS取得中にエラーが発生しました: " ++ message e)]).
Proof.
  intros Hget Herr Hparse Hkind. enter. pose proof get_run as Hrun.
  rewrite Hget in Hrun.
  erewrite try_caught; cycle 1.
  { erewrite bind_ok by exact Hrun. unfold raise_for_status, fromstring.
    rewrite Herr, Hparse. run. reflexivity. }
  { by rewrite Hkind. }
  by run.
Qed.

(** Any other exception of the parser meets no [except] clause and leaves
    the view. *)
Lemma get_news_parse_escapes resp e :
  requests_get w (at_fetch h category feed_url) feed_url 15 = inr resp →
  http_error resp = None →
  ET_fromstring w (content resp) = inl e →
  kind e = OtherException →
  get_news w category h =
  (Raise e, [Print (fetching category feed_url); HttpGet feed_url 15]).
Proof.
  intros Hget Herr Hparse Hkind. enter. pose proof get_run as Hrun.
  rewrite Hget in Hrun.
  erewrite try_escapes; cycle 1.
  { erewrite bind_ok by exact Hrun. unfold raise_for_status, fromstring.
    rewrite Herr, Hparse. run. reflexivity. }
  { by rewrite Hkind. }
  by run.
Qed.

Lemma get_news_success resp root :
  requests_get w (at_fetch h category feed_url) feed_url 15 = inr resp →
  http_error resp = None →
  ET_fromstring w (content resp) = inr root →
  ∃ news_list evs,
    get_news w category h =
    (Ok (JArray (json_of_article <$> news_list), 200%Z),
     Print (fetching category feed_url) :: HttpGet feed_url 15 :: evs
     ++ (if bool_decide (length news_list < 10)
         then [Print (shortfall (length news_list))] else []))
    ∧ Forall2 article_for (take 15 (feed_items root)) news_list
    ∧ Forall (λ e, is_fetch e = false) evs
    ∧ (key_missing (GEMINI_API_KEY w) = true →
       Forall (λ a, tags a = []) news_list
       ∧ Forall (λ e, is_genai e = false) evs).
Proof.
  intros Hget Herr Hparse.
  destruct (news_loop_spec w (feed_items root) []
              ((at_fetch h category feed_url) ++ [HttpGet feed_url 15]))
    as (news_list & evs & Hloop & Harts & Hf & Hk).
  cbn [app length] in Hloop, Harts. change (15 - 0) with 15 in Harts.
  exists news_list, evs. split; [|done].
  enter. pose proof get_run as Hrun. rewrite Hget in Hrun.
  erewrite try_ok; cycle 1.
  { erewrite bind_ok by exact Hrun. unfold raise_for_status, fromstring.
    rewrite Herr, Hparse. fold (feed_items root). run.
    reflexivity. }
  run. reflexivity.
Qed.

End View.

(** ** Every path of the view *)

Lemma get_news_invalid w category h :
  RSS_FEEDS !! category = None →
  get_news w category h = (Ok (json_error (py "Invalid category"), 400%Z), []).
Proof. intros H. unfold get_news. by rewrite H. Qed.

(** The view ends in one of four ways: the category is refused; the feed
    could not be had and an error object is returned after one request; the
    parser raised an exception that no [except] clause names, which leaves
    the view; or the feed was parsed and the articles are returned. *)
Lemma get_news_cases w category h :
  (RSS_FEEDS !! category = None
   ∧ get_news w category h
     = (Ok (json_error (py "Invalid category"), 400%Z), []))
  ∨ (∃ feed_url msg line,
       RSS_FEEDS !! category = Some feed_url
       ∧ get_news w category h
         = (Ok (json_error msg, 500%Z),
            [Print (fetching category feed_url); HttpGet feed_url 15;
             Print line]))
  ∨ (∃ feed_url resp e,
       RSS_FEEDS !! category = Some feed_url
       ∧ requests_get w (at_fetch h category feed_url) feed_url 15 = inr resp
       ∧ http_error resp = None
       ∧ ET_fromstring w (content resp) = inl e
       ∧ kind e = OtherException
       ∧ get_news w category h
         = (Raise e, [Print (fetching category feed_url); HttpGet feed_url 15]))
  ∨ (∃ feed_url root news_list evs,
       RSS_FEEDS !! category = Some feed_url
       ∧ feed_parsed w h category root
       ∧ get_news w category h
         = (Ok (JArray (json_of_article <$> news_list), 200%Z),
            Print (fetching category feed_url) :: HttpGet feed_url 15 :: evs
            ++ (if bool_decide (length news_list < 10)
                then [Print (shortfall (length news_list))] else []))
       ∧ Forall2 article_for (take 15 (feed_items root)) news_list
       ∧ Forall (λ e, is_fetch e = false) evs
       ∧ (key_missing (GEMINI_API_KEY w) = true →
          Forall (λ a, tags a = []) news_list
          ∧ Forall (λ e, is_genai e = false) evs)).
Proof.
  destruct (RSS_FEEDS !! category) as [feed_url|] eqn:Hc;
    [right | left; split; [done | by apply get_news_invalid]].
  destruct (requests_get w (at_fetch h category feed_url) feed_url 15)
    as [msg|resp] eqn:Hget.
  { left. eexists _, _, _. split; [done|].
    by eapply get_news_fetch_raises. }
  destruct (http_error resp) as [msg|] eqn:Herr.
  { left. eexists _, _, _. split; [done|].
    by eapply get_news_http_error. }
  destruct (ET_fromstring w (content resp)) as [e|root] eqn:Hparse.
  { destruct (kind e) eqn:Hkind.
    - left. eexists _, _, _. split; [done|].
      by eapply get_news_parse_taken_for_fetch.
    - left. eexists _, _, _. split; [done|].
      by eapply get_news_parse_error.
    - right. left. exists feed_url, resp, e. split_and!; try done.
      by eapply get_news_parse_escapes. }
  right. right.
  destruct (get_news_success w category feed_url h Hc resp root Hget Herr
              Hparse) as (news_list & evs & Hrun & Hrest).
  exists feed_url, root, news_list, evs. split_and!; try done.
  - by exists feed_url, resp.
  - apply Hrest.
  - apply Hrest.
  - apply Hrest.
Qed.

(** What [feed_parsed] gives. *)
Lemma get_news_parsed w category h root :
  feed_parsed w h category root →
  ∃ feed_url news_list evs,
    RSS_FEEDS !! category = Some feed_url
    ∧ get_news w category h
      = (Ok (JArray (json_of_article <$> news_list), 200%Z),
         Print (fetching category feed_url) :: HttpGet feed_url 15 :: evs
         ++ (if bool_decide (length news_list < 10)
             then [Print (shortfall (length news_list))] else []))
    ∧ Forall2 article_for (take 15 (feed_items root)) news_list
    ∧ Forall (λ e, is_fetch e = false) evs.
Proof.
  intros (feed_url & resp & Hc & Hget & Herr & Hparse).
  destruct (get_news_success w category feed_url h Hc resp root Hget Herr
              Hparse) as (news_list & evs & Hrun & Harts & Hf & _).
  by exists feed_url, news_list, evs.
Qed.

(** ** Enumeration *)

Section Enumerate.

Context {A : Type}.
Implicit Types (l : list A).

Lemma enumerate_length l : length (enumerate l) = length l.
Proof. unfold enumerate. rewrite length_zip, length_seq. lia. Qed.

Lemma enumerate_lookup l k x :
  l !! k = Some x → enumerate l !! k = Some (k, x).
Proof.
  intros H. unfold enumerate. apply lookup_zip_with_Some.
  exists k, x. split_and!; [done | | done].
  apply lookup_seq. split; [done|]. by apply lookup_lt_Some in H.
Qed.

Lemma enumerate_fst l : (enumerate l).*1 = seq 0 (length l).
Proof. unfold enumerate. apply fst_zip. rewrite length_seq. lia. Qed.

End Enumerate.

(** The articles built from a feed, index by index. *)
Lemma articles_of_items (items : list Element) (news_list : list Article) :
  Forall2 article_for (take 15 (enumerate items)) news_list →
  length news_list = length items `min` 15
  ∧ id <$> news_list = seq 0 (length news_list)
  ∧ ∀ k item, items !! k = Some item → k < 15 →
      ∃ a, news_list !! k = Some a ∧ article_for (k, item) a.
Proof.
  intros H. pose proof (Forall2_length _ _ _ H) as Hlen.
  rewrite length_take, enumerate_length in Hlen.
  split_and!.
  - lia.
  - assert ((take 15 (enumerate items)).*1 = id <$> news_list) as <-.
    { clear Hlen. induction H as [|p a ps l' Hp _ IH]; [done|].
      rewrite !fmap_cons, IH. f_equal. symmetry. apply Hp. }
    rewrite <- Hlen, fmap_take, enumerate_fst, take_seq. f_equal; lia.
  - intros k item Hk Hlt.
    eapply Forall2_lookup_l in H as (a & Ha & Hfor); [by exists a|].
    rewrite lookup_take_lt by done. by apply enumerate_lookup.
Qed.

(** ** JSON members of an article *)

Section Members.

Variable a : Article.

Lemma member_id : member "id" (json_of_article a) = Some (JInt (Z.of_nat (id a))).
Proof. reflexivity. Qed.

Lemma member_title :
  member "title" (json_of_article a) = Some (json_of_text (title a)).
Proof. reflexivity. Qed.

Lemma member_link :
  member "link" (json_of_article a) = Some (json_of_text (link a)).
Proof. reflexivity. Qed.

Lemma member_description :
  member "description" (json_of_article a)
  = Some (json_of_text (description a)).
Proof. reflexivity. Qed.

Lemma member_tags :
  member "tags" (json_of_article a) = Some (JArray (JString <$> tags a)).
Proof. reflexivity. Qed.

End Members.

Lemma sample_parsed key root answer category feed_url h :
  RSS_FEEDS !! category = Some feed_url →
  feed_parsed (fixed_world key (λ u, inr (ok_response u)) (inr root) answer)
    h category root.
Proof. intros H. by exists feed_url, (ok_response feed_url). Qed.

(** * The claims *)

(** C6. A category that is not a key of the feed registry (the lookup
    compares the strings as they are) is answered with status 400 and the
    body [{"error": "Invalid category"}]; nothing is emitted, so no feed is
    fetched. *)
Theorem unknown_category_refused w category h :
  RSS_FEEDS !! category = None →
  get_news w category h = (Ok (json_error (py "Invalid category"), 400%Z), [])
  ∧ json_error (py "Invalid category")
    = JObject [(py "error", JString (py "Invalid category"))]
  ∧ Forall (λ e, is_fetch e = false) (get_news w category h).2.
Proof.
  intros H. rewrite get_news_invalid by done. by split_and!.
Qed.

Lemma unknown_category_refused_witness :
  RSS_FEEDS !! py "foo" = None
  ∧ get_news (fixed_world None (λ u, inr (ok_response u)) (inr long_feed)
                tagging) (py "foo") []
    = (Ok (JObject [(py "error", JString (py "Invalid category"))], 400%Z), []).
Proof.
  split; [by vm_compute|].
  apply (unknown_category_refused
           (fixed_world None (λ u, inr (ok_response u)) (inr long_feed) tagging)
           (py "foo") []).
  by vm_compute.
Defined.

(** The lookup does not normalise: a key followed by a space, or the
    English name of a category, is unknown. *)
Example near_miss_refused :
  RSS_FEEDS !! py "経済 " = None ∧ RSS_FEEDS !! py "technology" = None
  ∧ RSS_FEEDS !! py "経済" ≠ None.
Proof. by vm_compute. Qed.

(** C5. The tags are the pieces between the commas of the raw text,
    stripped of whitespace at both ends, without the empty ones, in the
    order of the pieces; the raw text of the example gives the three tags
    of the example. *)
Theorem tag_parsing raw :
  let pieces := split comma raw in
  join comma pieces = raw
  ∧ Forall (λ p, comma ∉ p) pieces
  ∧ Forall (λ p, ∃ l r, p = l ++ strip p ++ r ∧ all_space l ∧ all_space r
                        ∧ trimmed (strip p)) pieces
  ∧ parse_tags raw = filter (λ t, t ≠ []) (strip <$> pieces)
  ∧ parse_tags (py "テクノロジー, AI ,新製品,")
    = [py "テクノロジー"; py "AI"; py "新製品"].
Proof.
  intros pieces. split_and!.
  - apply join_split.
  - apply split_no_sep.
  - apply Forall_forall. intros p _. apply strip_spec.
  - apply parse_tags_filter.
  - by vm_compute.
Qed.

(** C1. [chat] returns on every prompt that [generate_request_prompt]
    builds. Either the service answered with a text and the tags are parsed
    from it; or the tag list is empty and [chat] ended on the line that says
    why: there is no key, or the request raised, or reading the text of the
    answer raised, or the answer has no text, and the line printed is the
    line of that very exception. So the loop over the items never raises,
    and a request whose feed was fetched and parsed is always answered. *)
Theorem tag_generator_never_fails w :
  (∀ prompt content tmp p h,
     ∃ tags evs,
       chat w (generate_request_prompt prompt content tmp p) h
       = (Ok tags, evs)
       ∧ ((∃ k r raw,
             GEMINI_API_KEY w = Some k ∧ truthy k = true
             ∧ generate_content w (h ++ [NewClient {| api_key := k |}])
                 {| api_key := k |} (py "gemini-2.5-flash") content
                 {| system_instruction := prompt; max_output_tokens := 1024;
                    temperature := tmp; top_p := p |} = inr r
             ∧ response_text r = Ok (Some raw)
             ∧ tags = parse_tags raw)
          ∨ (tags = []
             ∧ ((key_missing (GEMINI_API_KEY w) = true
                 ∧ evs = [Print no_key_line])
                ∨ ∃ k e,
                    GEMINI_API_KEY w = Some k ∧ truthy k = true
                    ∧ last evs = Some (Print (api_error_line e))
                    ∧ let asked :=
                        generate_content w
                          (h ++ [NewClient {| api_key := k |}])
                          {| api_key := k |} (py "gemini-2.5-flash") content
                          {| system_instruction := prompt;
                             max_output_tokens := 1024;
                             temperature := tmp; top_p := p |} in
                      asked = inl e
                      ∨ ∃ r, asked = inr r
                             ∧ (response_text r = Raise e
                                ∨ (response_text r = Ok None
                                   ∧ e = Exn OtherException
                                           (py "'NoneType' object has no attribute 'split'")))))))
  ∧ (∀ items acc h,
       ∃ news_list evs, news_loop w items acc h = (Ok news_list, evs))
  ∧ (∀ category h root,
       feed_parsed w h category root →
       ∃ response evs, get_news w category h = (Ok response, evs)).
Proof.
  split_and!.
  - intros prompt content tmp p h.
    destruct (key_missing (GEMINI_API_KEY w)) eqn:Hk.
    { exists [], [Print no_key_line]. rewrite chat_no_key by done.
      split; [done|]. right. split; [done|]. by left. }
    destruct (GEMINI_API_KEY w) as [k|] eqn:Hw; [|done].
    apply negb_false_iff in Hk.
    rewrite (chat_with_key w (generate_request_prompt prompt content tmp p)
               {| author := py "user"; message_content := content |} [] h k
               Hw Hk eq_refl).
    cbn [message_content context maxOutputTokens prompt_temperature topP
         generate_request_prompt].
    destruct (generate_content _ _ _ _ _ _) as [e|r] eqn:Hg.
    { eexists _, _. split; [done|]. right. split; [done|]. right.
      exists k, e. split_and!; [done..|]. by left. }
    destruct (response_text r) as [[raw|]|e] eqn:Hr;
      eexists _, _; (split; [reflexivity|]).
    + left. by exists k, r, raw.
    + right. split; [done|]. right. eexists k, _.
      split_and!; [done..|]. right. exists r. split; [done|]. by right.
    + right. split; [done|]. right. exists k, e.
      split_and!; [done..|]. right. exists r. split; [done|]. by left.
  - intros items acc h.
    destruct (news_loop_spec w items acc h) as (arts & evs & Hrun & _).
    by eexists _, _.
  - intros category h root Hp.
    destruct (get_news_parsed w category h root Hp)
      as (u & nl & evs & _ & Hrun & _).
    by eexists _, _.
Qed.

Lemma tag_generator_never_fails_witness :
  let w := fixed_world (Some (py "key")) (λ u, inr (ok_response u))
             (inr ragged_feed) unreachable in
  feed_parsed w [] (py "経済") ragged_feed
  ∧ ∃ response evs, get_news w (py "経済") [] = (Ok response, evs).
Proof.
  intros w.
  assert (feed_parsed w [] (py "経済") ragged_feed) as Hp.
  { eapply sample_parsed. by vm_compute. }
  split; [exact Hp|].
  exact (proj2 (proj2 (tag_generator_never_fails w)) (py "経済") []
           ragged_feed Hp).
Defined.

(** The three failures the tag generator absorbs, each on its own. *)
Example chat_without_key :
  chat (fixed_world None (λ u, inr (ok_response u)) (inr long_feed) tagging)
    (generate_request_prompt system_prompt (py "news") (1 # 2) 1) []
  = (Ok [], [Print no_key_line]).
Proof. reflexivity. Qed.

Example chat_service_unreachable :
  (chat (fixed_world (Some (py "key")) (λ u, inr (ok_response u))
           (inr long_feed) unreachable)
     (generate_request_prompt system_prompt (py "news") (1 # 2) 1) []).1
  = Ok [].
Proof. by vm_compute. Qed.

Example chat_answer_without_text :
  (chat (fixed_world (Some (py "key")) (λ u, inr (ok_response u))
           (inr long_feed) speechless)
     (generate_request_prompt system_prompt (py "news") (1 # 2) 1) []).1
  = Ok [].
Proof. by vm_compute. Qed.

Example chat_answer_with_text :
  (chat (fixed_world (Some (py "key")) (λ u, inr (ok_response u))
           (inr long_feed) tagging)
     (generate_request_prompt system_prompt (py "news") (1 # 2) 1) []).1
  = Ok [py "テクノロジー"; py "AI"; py "新製品"].
Proof. by vm_compute. Qed.

(** A prompt without a message is not absorbed: the index lies outside the
    [try]. [generate_request_prompt] never builds such a prompt. *)
Example chat_on_prompt_without_message :
  (chat (fixed_world (Some (py "key")) (λ u, inr (ok_response u))
           (inr long_feed) tagging)
     {| context := []; maxOutputTokens := 1024; messages := [];
        prompt_temperature := 1 # 2; topP := 1 |} []).1
  = Raise (Exn OtherException (py "list index out of range")).
Proof. by vm_compute. Qed.

(** C3. Without [GEMINI_API_KEY], [chat] returns the empty list after
    printing one line, before it makes a client or a request; and whatever
    the view answers, it does not touch the client library, and every
    object of a returned array has the empty array as its tags. *)
Theorem no_key_no_tags w :
  GEMINI_API_KEY w = None →
  (∀ rp h, chat w rp h = (Ok [], [Print no_key_line]))
  ∧ (∀ category h,
       Forall (λ e, is_genai e = false) (get_news w category h).2
       ∧ ∀ items status,
           (get_news w category h).1 = Ok (JArray items, status) →
           Forall (λ j, member "tags" j = Some (JArray [])) items).
Proof.
  intros Hw. assert (key_missing (GEMINI_API_KEY w) = true) as Hk
    by by rewrite Hw.
  split; [intros rp h; by apply chat_no_key|].
  intros category h.
  destruct (get_news_cases w category h)
    as [[_ H]|[(u & msg & line & _ & H)
              |[(u & resp & e & _ & _ & _ & _ & _ & H)
               |(u & root & nl & evs & _ & _ & H & _ & _ & Hkey)]]];
    rewrite H; cbn [fst snd].
  - split; [constructor | by intros ? ? [=]].
  - split; [by repeat constructor | by intros ? ? [=]].
  - split; [by repeat constructor | by intros ? ? [=]].
  - destruct (Hkey Hk) as [Htags Hev]. split.
    + do 2 (constructor; [done|]). apply Forall_app. split; [done|].
      case_bool_decide; by repeat constructor.
    + intros items status [= <- _]. apply Forall_fmap.
      eapply Forall_impl; [exact Htags|]. intros a Ha.
      cbn [compose]. by rewrite member_tags, Ha.
Qed.

Lemma no_key_no_tags_witness :
  let w := fixed_world None (λ u, inr (ok_response u)) (inr ragged_feed)
             tagging in
  GEMINI_API_KEY w = None
  ∧ Forall (λ e, is_genai e = false) (get_news w (py "経済") []).2
  ∧ ∀ items status,
      (get_news w (py "経済") []).1 = Ok (JArray items, status) →
      Forall (λ j, member "tags" j = Some (JArray [])) items.
Proof.
  intros w. split; [reflexivity|].
  exact (proj2 (no_key_no_tags w eq_refl) (py "経済") []).
Defined.

(** The same request, evaluated: four articles come back, none with a
    tag, after one request for the feed and none to the service. *)
Example no_key_run :
  let w := fixed_world None (λ u, inr (ok_response u)) (inr ragged_feed)
             tagging in
  ∃ items evs,
    get_news w (py "経済") [] = (Ok (JArray items, 200%Z), evs)
    ∧ member "tags" <$> items = replicate 4 (Some (JArray []))
    ∧ List.filter is_genai evs = []
    ∧ length (List.filter is_fetch evs) = 1.
Proof. eexists _, _. split; [by vm_compute|]. by vm_compute. Qed.

(** ** Articles of a parsed feed *)

Lemma filter_none {A} (f : A → bool) (l : list A) :
  Forall (λ x, f x = false) l → List.filter f l = [].
Proof.
  induction 1 as [|x l Hx _ IH]; [done|]. cbn [List.filter]. by rewrite Hx.
Qed.

(** The shape of a successful answer, for the claims about articles. *)
Lemma get_news_articles w category h root :
  feed_parsed w h category root →
  ∃ news_list evs,
    get_news w category h
    = (Ok (JArray (json_of_article <$> news_list), 200%Z), evs)
    ∧ length news_list
      = length (findall_descendants (py "item") root) `min` 15
    ∧ id <$> news_list = seq 0 (length news_list)
    ∧ (∀ k item,
         findall_descendants (py "item") root !! k = Some item → k < 15 →
         ∃ a, news_list !! k = Some a ∧ article_for (k, item) a)
    ∧ (length news_list < 10 →
       last evs = Some (Print (shortfall (length news_list)))).
Proof.
  intros Hp.
  destruct (get_news_parsed w category h root Hp)
    as (u & news_list & evs & _ & Hrun & Harts & _).
  destruct (articles_of_items _ _ Harts) as (Hlen & Hids & Hat).
  eexists news_list, _. split; [exact Hrun|]. split_and!; try done.
  intros Hlt. rewrite bool_decide_eq_true_2 by done.
  by rewrite !app_comm_cons, last_snoc.
Qed.

(** C2. A returned array never has more than 15 elements. When the feed
    was parsed, the answer is the array of the articles built from the
    first 15 [item] elements in document order, the [k]-th with id [k];
    with at least 15 [item] elements there are exactly 15 articles, with
    ids 0 to 14. *)
Theorem response_bounded_and_ordered w category h :
  (∀ items status evs,
     get_news w category h = (Ok (JArray items, status), evs) →
     length items ≤ 15)
  ∧ (∀ root,
       feed_parsed w h category root →
       let feed := findall_descendants (py "item") root in
       ∃ news_list evs,
         get_news w category h
         = (Ok (JArray (json_of_article <$> news_list), 200%Z), evs)
         ∧ length news_list = length feed `min` 15
         ∧ member "id" <$> (json_of_article <$> news_list)
           = (λ k, Some (JInt (Z.of_nat k))) <$> seq 0 (length news_list)
         ∧ (∀ k item, feed !! k = Some item → k < 15 →
              ∃ a, news_list !! k = Some a ∧ article_for (k, item) a)
         ∧ (15 ≤ length feed →
            length news_list = 15 ∧ id <$> news_list = seq 0 15)).
Proof.
  split.
  - intros items status evs Hrun.
    destruct (get_news_cases w category h)
      as [[_ H]|[(u & msg & line & _ & H)
                |[(u & resp & e & _ & _ & _ & _ & _ & H)
                 |(u & root & nl & evs' & _ & _ & H & Harts & _)]]];
      rewrite H in Hrun; try done.
    injection Hrun as <- _ _. rewrite length_fmap.
    apply Forall2_length in Harts. rewrite <- Harts, length_take. lia.
  - intros root Hp feed.
    destruct (get_news_articles w category h root Hp)
      as (news_list & evs & Hrun & Hlen & Hids & Hat & _).
    exists news_list, evs. split_and!; try done.
    + rewrite <- Hids, <- !list_fmap_compose. apply list_fmap_ext.
      intros _ a _. apply member_id.
    + intros Hfeed. fold feed in Hlen.
      assert (length news_list = 15) as H15 by lia.
      by rewrite Hids, H15.
Qed.

Lemma response_bounded_and_ordered_witness :
  let w := fixed_world (Some (py "key")) (λ u, inr (ok_response u))
             (inr long_feed) tagging in
  feed_parsed w [] (py "経済") long_feed
  ∧ 15 ≤ length (findall_descendants (py "item") long_feed)
  ∧ ∃ news_list evs,
      get_news w (py "経済") []
      = (Ok (JArray (json_of_article <$> news_list), 200%Z), evs)
      ∧ length news_list = 15 ∧ id <$> news_list = seq 0 15.
Proof.
  intros w.
  assert (feed_parsed w [] (py "経済") long_feed) as Hp.
  { eapply sample_parsed. by vm_compute. }
  assert (15 ≤ length (findall_descendants (py "item") long_feed)) as Hlen.
  { vm_compute. lia. }
  split; [exact Hp|]. split; [exact Hlen|].
  destruct (proj2 (response_bounded_and_ordered w (py "経済") []) long_feed Hp)
    as (news_list & evs & Hrun & _ & _ & _ & H15).
  exists news_list, evs. split; [exact Hrun|]. exact (H15 Hlen).
Defined.

(** Sixteen items in, fifteen articles out, numbered from 0. *)
Example long_feed_run :
  let w := fixed_world (Some (py "key")) (λ u, inr (ok_response u))
             (inr long_feed) tagging in
  ∃ items evs,
    get_news w (py "経済") [] = (Ok (JArray items, 200%Z), evs)
    ∧ member "id" <$> items = (λ k, Some (JInt k)) <$> seqZ 0 15
    ∧ member "title" <$> items
      = (λ k, Some (JString (py "headline " ++ py (pretty k)))) <$> seq 0 15.
Proof. eexists _, _. split; [by vm_compute|]. by vm_compute. Qed.

(** C4. For every [item] element that becomes an article: without a
    [title] child the title is "No Title"; without a [link] child the link
    is "#"; without a [description] child the description is the title of
    the article. *)
Theorem missing_elements_fall_back w category h root :
  feed_parsed w h category root →
  ∃ news_list evs,
    get_news w category h
    = (Ok (JArray (json_of_article <$> news_list), 200%Z), evs)
    ∧ ∀ k item,
        findall_descendants (py "item") root !! k = Some item → k < 15 →
        ∃ a, news_list !! k = Some a
             ∧ (find (py "title") item = None →
                title a = Some (py "No Title"))
             ∧ (find (py "link") item = None → link a = Some (py "#"))
             ∧ (find (py "description") item = None →
                description a = title a).
Proof.
  intros Hp.
  destruct (get_news_articles w category h root Hp)
    as (news_list & evs & Hrun & _ & _ & Hat & _).
  exists news_list, evs. split; [done|]. intros k item Hk Hlt.
  destruct (Hat k item Hk Hlt) as (a & Ha & _ & Ht & Hl & Hd).
  exists a. cbn [fst snd] in *. split_and!; [done|..].
  - intros H. by rewrite Ht, H.
  - intros H. by rewrite Hl, H.
  - intros H. by rewrite Hd, H.
Qed.

Lemma missing_elements_fall_back_witness :
  let w := fixed_world None (λ u, inr (ok_response u)) (inr ragged_feed)
             tagging in
  feed_parsed w [] (py "国際") ragged_feed
  ∧ ∃ news_list evs,
      get_news w (py "国際") []
      = (Ok (JArray (json_of_article <$> news_list), 200%Z), evs)
      ∧ ∃ a, news_list !! 1 = Some a
             ∧ title a = Some (py "No Title") ∧ link a = Some (py "#")
             ∧ description a = title a.
Proof.
  intros w.
  assert (feed_parsed w [] (py "国際") ragged_feed) as Hp.
  { eapply sample_parsed. by vm_compute. }
  split; [exact Hp|].
  destruct (missing_elements_fall_back w (py "国際") [] ragged_feed Hp)
    as (news_list & evs & Hrun & Hat).
  exists news_list, evs. split; [exact Hrun|].
  destruct (Hat 1 (Elem (py "item") None [])) as (a & Ha & Ht & Hl & Hd).
  { by vm_compute. }
  { lia. }
  exists a. split; [exact Ha|].
  split; [by apply Ht|]. split; [by apply Hl|]. by apply Hd.
Defined.

(** C10. An [item] element with neither a [title] nor a [description]
    child becomes an article whose description is "No Title": the
    description falls back on the title the article was given. *)
Theorem description_falls_back_on_given_title w category h root :
  feed_parsed w h category root →
  ∃ news_list evs,
    get_news w category h
    = (Ok (JArray (json_of_article <$> news_list), 200%Z), evs)
    ∧ ∀ k item,
        findall_descendants (py "item") root !! k = Some item → k < 15 →
        find (py "title") item = None →
        find (py "description") item = None →
        ∃ a, news_list !! k = Some a
             ∧ description a = Some (py "No Title")
             ∧ member "description" (json_of_article a)
               = Some (JString (py "No Title")).
Proof.
  intros Hp.
  destruct (get_news_articles w category h root Hp)
    as (news_list & evs & Hrun & _ & _ & Hat & _).
  exists news_list, evs. split; [done|]. intros k item Hk Hlt Hnt Hnd.
  destruct (Hat k item Hk Hlt) as (a & Ha & _ & Ht & _ & Hd).
  cbn [fst snd] in *. rewrite Hnt in Ht. rewrite Hnd, Ht in Hd.
  exists a. split; [done|]. split; [done|].
  by rewrite member_description, Hd.
Qed.

Lemma description_falls_back_on_given_title_witness :
  let w := fixed_world None (λ u, inr (ok_response u)) (inr ragged_feed)
             tagging in
  feed_parsed w [] (py "スポーツ") ragged_feed
  ∧ ∃ news_list evs,
      get_news w (py "スポーツ") []
      = (Ok (JArray (json_of_article <$> news_list), 200%Z), evs)
      ∧ ∃ a, news_list !! 1 = Some a
             ∧ description a = Some (py "No Title").
Proof.
  intros w.
  assert (feed_parsed w [] (py "スポーツ") ragged_feed) as Hp.
  { eapply sample_parsed. by vm_compute. }
  split; [exact Hp|].
  destruct (description_falls_back_on_given_title w (py "スポーツ") []
              ragged_feed Hp) as (news_list & evs & Hrun & Hat).
  exists news_list, evs. split; [exact Hrun|].
  destruct (Hat 1 (Elem (py "item") None [])) as (a & Ha & Hd & _).
  { by vm_compute. }
  { lia. }
  { reflexivity. }
  { reflexivity. }
  by exists a.
Defined.

(** C9. A [title] child that is there but holds no text gives the article
    the title [None], [null] in the answer, and not "No Title"; likewise a
    [link] or [description] child without text gives [None]. *)
Theorem empty_elements_give_null w category h root :
  feed_parsed w h category root →
  ∃ news_list evs,
    get_news w category h
    = (Ok (JArray (json_of_article <$> news_list), 200%Z), evs)
    ∧ ∀ k item,
        findall_descendants (py "item") root !! k = Some item → k < 15 →
        ∃ a, news_list !! k = Some a
             ∧ (∀ e, find (py "title") item = Some e → text e = None →
                  title a = None
                  ∧ member "title" (json_of_article a) = Some JNull)
             ∧ (∀ e, find (py "link") item = Some e → text e = None →
                  link a = None
                  ∧ member "link" (json_of_article a) = Some JNull)
             ∧ (∀ e, find (py "description") item = Some e → text e = None →
                  description a = None
                  ∧ member "description" (json_of_article a) = Some JNull).
Proof.
  intros Hp.
  destruct (get_news_articles w category h root Hp)
    as (news_list & evs & Hrun & _ & _ & Hat & _).
  exists news_list, evs. split; [done|]. intros k item Hk Hlt.
  destruct (Hat k item Hk Hlt) as (a & Ha & _ & Ht & Hl & Hd).
  exists a. cbn [fst snd] in *. split_and!; [done|..]; intros e He Hnone.
  - rewrite He in Ht. cbn [text_or] in Ht. rewrite Hnone in Ht.
    split; [done|]. by rewrite member_title, Ht.
  - rewrite He in Hl. cbn [text_or] in Hl. rewrite Hnone in Hl.
    split; [done|]. by rewrite member_link, Hl.
  - rewrite He in Hd. cbn [text_or] in Hd. rewrite Hnone in Hd.
    split; [done|]. by rewrite member_description, Hd.
Qed.

Lemma empty_elements_give_null_witness :
  let w := fixed_world None (λ u, inr (ok_response u)) (inr ragged_feed)
             tagging in
  feed_parsed w [] (py "テクノロジー") ragged_feed
  ∧ ∃ news_list evs,
      get_news w (py "テクノロジー") []
      = (Ok (JArray (json_of_article <$> news_list), 200%Z), evs)
      ∧ ∃ a, news_list !! 2 = Some a
             ∧ title a = None ∧ link a = None ∧ description a = None.
Proof.
  intros w.
  assert (feed_parsed w [] (py "テクノロジー") ragged_feed) as Hp.
  { eapply sample_parsed. by vm_compute. }
  split; [exact Hp|].
  destruct (empty_elements_give_null w (py "テクノロジー") [] ragged_feed Hp)
    as (news_list & evs & Hrun & Hat).
  exists news_list, evs. split; [exact Hrun|].
  destruct (Hat 2 (Elem (py "item") None
                     [hollow "title"; hollow "link"; hollow "description"]))
    as (a & Ha & Ht & Hl & Hd).
  { by vm_compute. }
  { lia. }
  exists a. split; [exact Ha|].
  split; [exact (proj1 (Ht (hollow "title") eq_refl eq_refl))|].
  split; [exact (proj1 (Hl (hollow "link") eq_refl eq_refl))|].
  exact (proj1 (Hd (hollow "description") eq_refl eq_refl)).
Defined.

(** The ragged feed, evaluated: the titles and descriptions of its four
    articles. *)
Example ragged_feed_run :
  let w := fixed_world None (λ u, inr (ok_response u)) (inr ragged_feed)
             tagging in
  ∃ items evs,
    get_news w (py "テクノロジー") [] = (Ok (JArray items, 200%Z), evs)
    ∧ member "title" <$> items
      = [ Some (JString (py "headline 0")); Some (JString (py "No Title"));
          Some JNull; Some (JString (py "only a title")) ]
    ∧ member "link" <$> items
      = [ Some (JString (py "https://example.org/story"));
          Some (JString (py "#")); Some JNull; Some (JString (py "#")) ]
    ∧ member "description" <$> items
      = [ Some (JString (py "summary")); Some (JString (py "No Title"));
          Some JNull; Some (JString (py "only a title")) ].
Proof. eexists _, _. split; [by vm_compute|]. by vm_compute. Qed.

(** C8. Once the feed was fetched and parsed, the answer has status 200
    and is the array of the articles, however few there are; with fewer
    than ten, none included, the only difference is a warning printed
    last. *)
Theorem shortfall_only_logged w category h root :
  feed_parsed w h category root →
  ∃ news_list evs,
    get_news w category h
    = (Ok (JArray (json_of_article <$> news_list), 200%Z), evs)
    ∧ length news_list
      = length (findall_descendants (py "item") root) `min` 15
    ∧ (∀ k item,
         findall_descendants (py "item") root !! k = Some item → k < 15 →
         ∃ a, news_list !! k = Some a ∧ article_for (k, item) a)
    ∧ (length news_list < 10 →
       last evs = Some (Print (shortfall (length news_list))))
    ∧ (findall_descendants (py "item") root = [] → news_list = []).
Proof.
  intros Hp.
  destruct (get_news_articles w category h root Hp)
    as (news_list & evs & Hrun & Hlen & _ & Hat & Hwarn).
  exists news_list, evs. split_and!; try done.
  intros Hnil. rewrite Hnil in Hlen. by destruct news_list.
Qed.

Lemma shortfall_only_logged_witness :
  let w := fixed_world (Some (py "key")) (λ u, inr (ok_response u))
             (inr (channel [])) unreachable in
  feed_parsed w [] (py "経済") (channel [])
  ∧ ∃ evs,
      get_news w (py "経済") [] = (Ok (JArray [], 200%Z), evs)
      ∧ last evs = Some (Print (shortfall 0)).
Proof.
  intros w.
  assert (feed_parsed w [] (py "経済") (channel [])) as Hp.
  { eapply sample_parsed. by vm_compute. }
  split; [exact Hp|].
  destruct (shortfall_only_logged w (py "経済") [] (channel []) Hp)
    as (news_list & evs & Hrun & _ & _ & Hwarn & Hnil).
  rewrite (Hnil eq_refl) in Hrun, Hwarn.
  exists evs. split; [exact Hrun|]. apply Hwarn. cbn [length]. lia.
Defined.

(** Four articles are returned with status 200 after the warning. *)
Example short_feed_run :
  let w := fixed_world (Some (py "key")) (λ u, inr (ok_response u))
             (inr ragged_feed) unreachable in
  ∃ items evs,
    get_news w (py "経済") [] = (Ok (JArray items, 200%Z), evs)
    ∧ length items = 4
    ∧ last evs = Some (Print (shortfall 4)).
Proof. eexists _, _. split; [by vm_compute|]. by vm_compute. Qed.




(** * Further properties *)

(** ** The tag parser *)

Section Parser.

Implicit Types (s p a b raw : str) (c sep : N).

Lemma split_app sep a b :
  split sep (a ++ sep :: b) = split sep a ++ split sep b.
Proof.
  induction a as [|c a IH]; cbn [app split].
  - by rewrite N.eqb_refl.
  - destruct (c =? sep)%N; [by rewrite IH|].
    rewrite IH. pose proof (split_nonempty sep a) as Hne.
    by destruct (split sep a).
Qed.

Lemma split_without_sep sep p : sep ∉ p → split sep p = [p].
Proof.
  induction p as [|c p IH]; [done|]. intros Hnot. cbn [split].
  destruct (N.eqb_spec c sep) as [->|_]; [set_solver|].
  rewrite IH; [done | set_solver].
Qed.

Lemma split_join sep (ps : list str) :
  ps ≠ [] → Forall (λ p, sep ∉ p) ps → split sep (join sep ps) = ps.
Proof.
  induction ps as [|p ps IH]; [done|]. intros _ Hall.
  inversion_clear Hall as [|? ? Hp Hps].
  destruct ps as [|q ps]; [by apply split_without_sep|].
  change (join sep (p :: q :: ps)) with (p ++ sep :: join sep (q :: ps)).
  rewrite split_app, split_without_sep, IH by done. done.
Qed.

Lemma lstrip_fixed s :
  (∀ c, head s = Some c → isspace c = false) → lstrip s = s.
Proof.
  destruct s as [|c s]; [done|]. intros H. cbn [lstrip].
  by rewrite (H c eq_refl).
Qed.

Lemma strip_trimmed s : trimmed s → strip s = s.
Proof.
  intros [Hhd Hlast]. unfold strip, rstrip.
  rewrite (lstrip_fixed s Hhd), lstrip_fixed, reverse_involutive; [done|].
  intros c Hc. apply Hlast. by rewrite <- head_reverse.
Qed.

Lemma lstrip_all_space s : all_space s → lstrip s = [].
Proof.
  induction 1 as [|c s Hc _ IH]; [done|]. cbn [lstrip]. by rewrite Hc.
Qed.

Lemma strip_empty_iff s : strip s = [] ↔ all_space s.
Proof.
  split.
  - intros H. destruct (strip_spec s) as (l & r & Hs & Hl & Hr & _).
    rewrite H in Hs. rewrite Hs. by apply Forall_app.
  - intros H. unfold strip. by rewrite lstrip_all_space.
Qed.

(** Every parsed tag is a good tag. *)
Lemma parse_tags_good raw : Forall good_tag (parse_tags raw).
Proof.
  rewrite parse_tags_filter. apply Forall_forall.
  intros t [Hne (p & -> & Hp)%list_elem_of_fmap]%list_elem_of_filter.
  destruct (strip_spec p) as (l & r & Hs & _ & _ & Htrim).
  split_and!; [done | | done].
  pose proof (split_no_sep comma raw) as Hno.
  rewrite Forall_forall in Hno. intros Hin. apply (Hno p Hp).
  rewrite Hs. set_solver.
Qed.

End Parser.

Lemma filter_strip_good (ts : list str) :
  Forall good_tag ts → filter (λ t, t ≠ []) (strip <$> ts) = ts.
Proof.
  induction 1 as [|t ts (Ht & _ & Htrim) _ IH]; [done|].
  rewrite fmap_cons, filter_cons, strip_trimmed by done.
  match goal with |- context [decide ?P] => destruct (decide P) end; [|done].
  f_equal. exact IH.
Qed.

(** X1. Tags written out with commas and parsed again are the same tags:
    for every list of good tags, [parse_tags] undoes [join]; so parsing
    is idempotent through [join]. *)
Theorem parse_join_round_trip (ts : list str) :
  Forall good_tag ts →
  parse_tags (join comma ts) = ts
  ∧ ∀ raw, parse_tags (join comma (parse_tags raw)) = parse_tags raw.
Proof.
  assert (∀ ts : list str, Forall good_tag ts →
            parse_tags (join comma ts) = ts) as Hround.
  { clear ts. intros ts Hgood. destruct (decide (ts = [])) as [->|Hne].
    { by vm_compute. }
    rewrite parse_tags_filter, split_join; [by apply filter_strip_good|done|].
    eapply Forall_impl; [exact Hgood|]. by intros t (_ & Hc & _). }
  intros Hgood. split; [by apply Hround|].
  intros raw. apply Hround, parse_tags_good.
Qed.

Lemma parse_join_round_trip_witness :
  Forall good_tag [py "新製品"; py "AI"; py "AI"]
  ∧ parse_tags (join comma [py "新製品"; py "AI"; py "AI"])
    = [py "新製品"; py "AI"; py "AI"].
Proof.
  assert (Forall good_tag [py "新製品"; py "AI"; py "AI"]) as Hgood.
  { assert (parse_tags (py " 新製品,AI , AI")
            = [py "新製品"; py "AI"; py "AI"]) as <- by by vm_compute.
    apply parse_tags_good. }
  split; [exact Hgood|].
  exact (proj1 (parse_join_round_trip _ Hgood)).
Defined.

(** X2. Parsing distributes over a comma: the tags of [a], a comma, [b]
    are the tags of [a] followed by the tags of [b]. Equal tags are
    therefore kept, each where it stands. *)
Theorem parse_tags_comma a b :
  parse_tags (a ++ comma :: b) = parse_tags a ++ parse_tags b.
Proof. unfold parse_tags. by rewrite split_app, bind_app. Qed.

(** X3. The parser returns no tag exactly when the text holds nothing but
    whitespace and commas; the empty text is such a text. *)
Theorem parse_tags_nil_iff raw :
  parse_tags raw = [] ↔ Forall (λ c, isspace c = true ∨ c = comma) raw.
Proof.
  assert (Forall (λ c, isspace c = true ∨ c = comma) raw
          ↔ Forall all_space (split comma raw)) as ->.
  { induction raw as [|c raw IH]; cbn [split].
    - split; intros _; repeat constructor.
    - rewrite Forall_cons, IH. destruct (N.eqb_spec c comma) as [->|Hne].
      + rewrite Forall_cons. split; [intros [_ H] | intros [_ H]].
        * split; [constructor | done].
        * split; [by right | done].
      + pose proof (split_nonempty comma raw) as Hs.
        destruct (split comma raw) as [|p ps]; [done|].
        rewrite !Forall_cons.
        assert (all_space (c :: p) ↔ isspace c = true ∧ all_space p) as ->
          by exact (Forall_cons (λ c, isspace c = true) c p).
        tauto. }
  rewrite parse_tags_filter.
  induction (split comma raw) as [|p ps IH]; [by split|].
  rewrite fmap_cons, filter_cons, Forall_cons, <- IH, <- strip_empty_iff.
  match goal with
  | |- context [decide ?P] => destruct (decide P) as [Hne|Heq]
  end.
  - split; [done | by intros [? _]].
  - assert (strip p = []) by (destruct (strip p); [done | by destruct Heq]).
    tauto.
Qed.

Lemma parse_tags_nil_iff_witness :
  Forall (λ c, isspace c = true ∨ c = comma) (py " ,　, ")
  ∧ parse_tags (py " ,　, ") = [].
Proof.
  assert (Forall (λ c, isspace c = true ∨ c = comma) (py " ,　, ")) as Hws.
  { vm_compute. repeat (constructor; [first [by left | by right]|]).
    constructor. }
  split; [exact Hws|]. exact (proj2 (parse_tags_nil_iff _) Hws).
Defined.

(** ** The tag generator, beyond the prompts of the view *)

(** X4. [chat] raises exactly when a key is set and the prompt has no
    message: the index stands before the [try]. It then raises an
    [IndexError] after making the client and before any request. *)
Theorem chat_raises_iff w rp h :
  ((∃ e evs, chat w rp h = (Raise e, evs))
   ↔ key_missing (GEMINI_API_KEY w) = false ∧ messages rp = [])
  ∧ (key_missing (GEMINI_API_KEY w) = false → messages rp = [] →
     ∃ k, GEMINI_API_KEY w = Some k
          ∧ chat w rp h
            = (Raise (Exn OtherException (py "list index out of range")),
               [NewClient {| api_key := k |}])).
Proof.
  assert (key_missing (GEMINI_API_KEY w) = false → messages rp = [] →
          ∃ k, GEMINI_API_KEY w = Some k
               ∧ chat w rp h
                 = (Raise (Exn OtherException (py "list index out of range")),
                    [NewClient {| api_key := k |}])) as Hraise.
  { intros Hk Hm. destruct (GEMINI_API_KEY w) as [k|] eqn:Hw; [|done].
    exists k. split; [done|]. unfold chat. rewrite Hw, Hk, Hm.
    cbn [first_item default]. change (Datatypes.id k) with k.
    erewrite bind_ok by apply emit_run.
    erewrite bind_raise by apply raise_run. by run. }
  split; [|exact Hraise]. split.
  - intros (e & evs & Hrun).
    destruct (key_missing (GEMINI_API_KEY w)) eqn:Hk.
    { by rewrite chat_no_key in Hrun. }
    split; [done|]. destruct (messages rp) as [|m ms] eqn:Hm; [done|].
    destruct (chat_outcome w rp h) as (tags & evs' & Hok & _);
      [by rewrite Hm|]. by rewrite Hok in Hrun.
  - intros [Hk Hm]. destruct (Hraise Hk Hm) as (k & _ & Hrun).
    by eexists _, _.
Qed.

Lemma chat_raises_iff_witness :
  let w := fixed_world (Some (py "key")) (λ u, inr (ok_response u))
             (inr long_feed) tagging in
  let rp := {| context := py "tags, please"; maxOutputTokens := 1024;
               messages := []; prompt_temperature := 1 # 2; topP := 1 |} in
  key_missing (GEMINI_API_KEY w) = false
  ∧ messages rp = []
  ∧ ∃ k, GEMINI_API_KEY w = Some k
         ∧ chat w rp []
           = (Raise (Exn OtherException (py "list index out of range")),
              [NewClient {| api_key := k |}]).
Proof.
  intros w rp. split; [reflexivity|]. split; [reflexivity|].
  exact (proj2 (chat_raises_iff w rp []) eq_refl eq_refl).
Defined.

Lemma chat_calls w rp m ms h k :
  GEMINI_API_KEY w = Some k → truthy k = true → messages rp = m :: ms →
  let client := {| api_key := k |} in
  let config :=
    {| system_instruction := context rp;
       max_output_tokens := maxOutputTokens rp;
       temperature := prompt_temperature rp;
       top_p := topP rp |} in
  ∃ rest,
    chat w rp h
    = (Ok (tags_from
             (generate_content w (h ++ [NewClient client]) client
                (py "gemini-2.5-flash") (message_content m) config)),
       NewClient client
       :: GenerateContent client (py "gemini-2.5-flash") (message_content m)
            config
       :: rest)
    ∧ Forall (λ e, is_genai e = false) rest
    ∧ Forall (λ e, is_fetch e = false) rest.
Proof.
  intros Hw Hk Hm client config.
  rewrite (chat_with_key w rp m ms h k Hw Hk Hm). fold client config.
  unfold tags_from.
  destruct (generate_content _ _ _ _ _ _) as [e|r];
    [|destruct (response_text r) as [[raw|]|e]];
    eexists; (split_and!; [reflexivity | by repeat constructor..]).
Qed.

(** X5. The script and [chat] read the key alike. When the script starts
    the server, in debug mode on port 5000, every call of [chat] on a
    prompt with a message makes a client and one request with the first
    message; when the script complains instead, every call of [chat]
    returns no tag and reaches nothing. *)
Theorem script_and_chat_agree w :
  (∀ debug port,
     main w = Serve debug port →
     debug = true ∧ port = 5000%Z
     ∧ ∃ k, GEMINI_API_KEY w = Some k
            ∧ ∀ rp m ms h,
                messages rp = m :: ms →
                ∃ tags config rest,
                  chat w rp h
                  = (Ok tags,
                     NewClient {| api_key := k |}
                     :: GenerateContent {| api_key := k |}
                          (py "gemini-2.5-flash") (message_content m) config
                     :: rest)
                  ∧ Forall (λ e, is_genai e = false) rest)
  ∧ (∀ line,
       main w = Complain line →
       ∀ rp h, chat w rp h = (Ok [], [Print no_key_line])).
Proof.
  unfold main. destruct (key_missing (GEMINI_API_KEY w)) eqn:Hk; split;
    try done.
  - intros line _ rp h. by apply chat_no_key.
  - intros debug port [= <- <-]. split_and!; [done..|].
    destruct (GEMINI_API_KEY w) as [k|] eqn:Hw; [|done].
    apply negb_false_iff in Hk. exists k. split; [done|].
    intros rp m ms h Hm.
    destruct (chat_calls w rp m ms h k Hw Hk Hm) as (rest & Hrun & Hg & _).
    by eexists _, _, rest.
Qed.

Lemma script_and_chat_agree_witness :
  let w := fixed_world (Some (py "key")) (λ u, inr (ok_response u))
             (inr long_feed) unreachable in
  main w = Serve true 5000
  ∧ ∃ k, GEMINI_API_KEY w = Some k
         ∧ ∀ rp m ms h,
             messages rp = m :: ms →
             ∃ tags config rest,
               chat w rp h
               = (Ok tags,
                  NewClient {| api_key := k |}
                  :: GenerateContent {| api_key := k |}
                       (py "gemini-2.5-flash") (message_content m) config
                  :: rest)
               ∧ Forall (λ e, is_genai e = false) rest.
Proof.
  intros w. split; [reflexivity|].
  exact (proj2 (proj2 (proj1 (script_and_chat_agree w) true 5000%Z eq_refl))).
Defined.

(** ** The calls of a request *)

Section Calls.

Variable w : World.
Implicit Types (h evs : trace) (acc nl : list Article).

Lemma tags_from_good answer : Forall good_tag (tags_from answer).
Proof.
  destruct answer as [e|r]; [constructor|]. cbn [tags_from].
  destruct (response_text r) as [[raw|]|e];
    [apply parse_tags_good | constructor..].
Qed.

Lemma prompt_text_unfold t d :
  py "記事のタイトル: " ++ fmt t ++ [10%N] ++ py "記事の概要: " ++ fmt d
  = prompt_text t d.
Proof. unfold prompt_text. reflexivity. Qed.

(** One call of [chat] from the loop, under a key. *)
Lemma chat_article_calls prompt content tmp p h k :
  GEMINI_API_KEY w = Some k → truthy k = true →
  let config :=
    {| system_instruction := prompt; max_output_tokens := 1024;
       temperature := tmp; top_p := p |} in
  ∃ hk rest,
    chat w (generate_request_prompt prompt content tmp p) h
    = (Ok (tags_from
             (generate_content w hk {| api_key := k |}
                (py "gemini-2.5-flash") content config)),
       NewClient {| api_key := k |}
       :: GenerateContent {| api_key := k |} (py "gemini-2.5-flash") content
            config
       :: rest)
    ∧ Forall (λ e, is_genai e = false) rest.
Proof.
  intros Hw Hk config.
  destruct (chat_calls w (generate_request_prompt prompt content tmp p)
              {| author := py "user"; message_content := content |} [] h k
              Hw Hk eq_refl) as (rest & Hrun & Hg & _).
  by exists (h ++ [NewClient {| api_key := k |}]), rest.
Qed.

(** What the loop does to the client library, article by article. *)
Lemma news_loop_calls items acc h nl evs :
  news_loop w items acc h = (Ok nl, evs) →
  ∃ arts,
    nl = acc ++ arts
    ∧ Forall (λ a, Forall good_tag (tags a)) arts
    ∧ (key_missing (GEMINI_API_KEY w) = true → List.filter is_genai evs = [])
    ∧ (∀ k, GEMINI_API_KEY w = Some k → truthy k = true →
         List.filter is_genai evs = flat_map (calls_for k) arts
         ∧ Forall (λ a, ∃ hk,
                     tags a = tags_from
                       (generate_content w hk {| api_key := k |}
                          (py "gemini-2.5-flash") (news_content a)
                          request_config)) arts).
Proof.
  revert acc h nl evs.
  induction items as [|[i item] rest IH]; intros acc h nl evs.
  - intros [= <- <-]. exists []. rewrite app_nil_r.
    split_and!; [done | constructor | done |]. intros k _ _.
    split; [done | constructor].
  - cbn [news_loop]. case_bool_decide as Hfull.
    + intros [= <- <-]. exists []. rewrite app_nil_r.
      split_and!; [done | constructor | done |]. intros k _ _.
      split; [done | constructor].
    + set (t0 := text_or (find (py "title") item) (Some (py "No Title"))).
      set (l0 := text_or (find (py "link") item) (Some (py "#"))).
      set (d0 := text_or (find (py "description") item) t0).
      rewrite (prompt_text_unfold t0 d0).
      remember (prompt_text t0 d0) as content eqn:Hcontent.
      remember system_prompt as prompt eqn:Hprompt.
      intros Hrun.
      assert (∃ tgs evs1,
                chat w (generate_request_prompt prompt content (1 # 2) 1) h
                = (Ok tgs, evs1)
                ∧ Forall good_tag tgs
                ∧ (key_missing (GEMINI_API_KEY w) = true →
                   List.filter is_genai evs1 = [])
                ∧ (∀ k, GEMINI_API_KEY w = Some k → truthy k = true →
                     ∃ hk,
                       List.filter is_genai evs1
                       = [ NewClient {| api_key := k |};
                           GenerateContent {| api_key := k |}
                             (py "gemini-2.5-flash") content
                             {| system_instruction := prompt;
                                max_output_tokens := 1024;
                                temperature := 1 # 2; top_p := 1 |} ]
                       ∧ tgs = tags_from
                           (generate_content w hk {| api_key := k |}
                              (py "gemini-2.5-flash") content
                              {| system_instruction := prompt;
                                 max_output_tokens := 1024;
                                 temperature := 1 # 2; top_p := 1 |})))
        as (tgs & evs1 & Hchat & Hgood & Hnone & Hcalls).
      { destruct (key_missing (GEMINI_API_KEY w)) eqn:Hk.
        - exists [], [Print no_key_line]. rewrite chat_no_key by done.
          split_and!; [done | constructor | done |].
          intros k Hw Ht. rewrite Hw in Hk. cbn [key_missing] in Hk.
          by rewrite Ht in Hk.
        - destruct (GEMINI_API_KEY w) as [k|] eqn:Hw; [|done].
          apply negb_false_iff in Hk.
          destruct (chat_article_calls prompt content (1 # 2) 1 h k Hw Hk)
            as (hk & more & Hchat & Hg).
          eexists _, _. split; [exact Hchat|].
          split_and!; [apply tags_from_good | done |].
          intros k' [= <-] _. exists hk. split; [|reflexivity].
          cbn [List.filter is_genai]. rewrite (filter_none _ _ Hg).
          reflexivity. }
      erewrite bind_ok in Hrun by exact Hchat.
      erewrite bind_ok in Hrun by apply print_run.
      match type of Hrun with
      | context [Print ?l] => generalize dependent l; intros line Hrun
      end.
      destruct (news_loop w rest _ _) as [r evs2] eqn:Hloop.
      rewrite !after_pair in Hrun. injection Hrun as -> <-.
      apply IH in Hloop as (arts & -> & Hgoods & Hnone2 & Hcalls2).
      eexists (_ :: arts). split; [by rewrite <- (assoc_L (++))|].
      split_and!.
      * by constructor.
      * intros Hk. rewrite List.filter_app. cbn [List.filter is_genai].
        by rewrite Hnone, Hnone2.
      * intros k Hw Ht. destruct (Hcalls k Hw Ht) as (hk & Hev & Htags).
        destruct (Hcalls2 k Hw Ht) as (Hev2 & Htags2).
        rewrite Hprompt, Hcontent in Hev, Htags.
        split.
        -- rewrite List.filter_app. cbn [List.filter is_genai].
           rewrite Hev, Hev2. cbn [flat_map].
           apply (f_equal2 app); [|reflexivity].
           unfold calls_for, news_content, request_config.
           cbn [title description]. reflexivity.
        -- constructor; [|done]. exists hk. unfold news_content.
           cbn [title description tags]. exact Htags.
Qed.

End Calls.

(** ** The view and the service *)

Lemma get_news_of_loop w category feed_url h resp root nl evs :
  RSS_FEEDS !! category = Some feed_url →
  requests_get w (at_fetch h category feed_url) feed_url 15 = inr resp →
  http_error resp = None →
  ET_fromstring w (content resp) = inr root →
  news_loop w (feed_items root) []
    (at_fetch h category feed_url ++ [HttpGet feed_url 15]) = (Ok nl, evs) →
  get_news w category h
  = (Ok (JArray (json_of_article <$> nl), 200%Z),
     Print (fetching category feed_url) :: HttpGet feed_url 15 :: evs
     ++ (if bool_decide (length nl < 10)
         then [Print (shortfall (length nl))] else [])).
Proof.
  intros Hc Hget Herr Hparse Hloop.
  unfold get_news. rewrite Hc, (proj2 (RSS_FEEDS_known _ _ Hc)). cbn [negb].
  erewrite bind_ok by apply print_run. fold (at_fetch h category feed_url).
  pose proof (get_run w category feed_url h) as Hrun. rewrite Hget in Hrun.
  erewrite try_ok; cycle 1.
  { erewrite bind_ok by exact Hrun. unfold raise_for_status, fromstring.
    rewrite Herr, Hparse. fold (feed_items root). run. reflexivity. }
  run. reflexivity.
Qed.

(** A parsed feed: the answer, and what was asked of the service. *)
Lemma get_news_calls w category h root :
  feed_parsed w h category root →
  ∃ feed_url news_list evs,
    RSS_FEEDS !! category = Some feed_url
    ∧ get_news w category h
      = (Ok (JArray (json_of_article <$> news_list), 200%Z),
         Print (fetching category feed_url) :: HttpGet feed_url 15 :: evs
         ++ (if bool_decide (length news_list < 10)
             then [Print (shortfall (length news_list))] else []))
    ∧ length news_list ≤ 15
    ∧ Forall (λ a, Forall good_tag (tags a)) news_list
    ∧ (key_missing (GEMINI_API_KEY w) = true → List.filter is_genai evs = [])
    ∧ (∀ k, GEMINI_API_KEY w = Some k → truthy k = true →
         List.filter is_genai evs = flat_map (calls_for k) news_list
         ∧ Forall (λ a, ∃ hk,
                     tags a = tags_from
                       (generate_content w hk {| api_key := k |}
                          (py "gemini-2.5-flash") (news_content a)
                          request_config)) news_list).
Proof.
  intros (feed_url & resp & Hc & Hget & Herr & Hparse).
  destruct (news_loop_spec w (feed_items root) []
              (at_fetch h category feed_url ++ [HttpGet feed_url 15]))
    as (nl & evs & Hloop & Harts & _).
  cbn [app length] in Hloop, Harts.
  destruct (news_loop_calls w _ _ _ _ _ Hloop)
    as (arts & Heq & Hgood & Hnone & Hcalls).
  cbn [app] in Heq. subst arts.
  exists feed_url, nl, evs. split; [done|].
  split; [by eapply get_news_of_loop|].
  split; [|done].
  apply Forall2_length in Harts. rewrite <- Harts, length_take. lia.
Qed.

Lemma generate_among_genai (l : trace) :
  List.filter is_generate (List.filter is_genai l) = List.filter is_generate l.
Proof.
  induction l as [|e l IH]; [done|].
  destruct e; cbn [List.filter is_genai is_generate]; by rewrite IH.
Qed.

Lemma generate_per_article k (l : list Article) :
  length (List.filter is_generate (flat_map (calls_for k) l)) = length l.
Proof.
  induction l as [|a l IH]; [done|].
  cbn [flat_map calls_for app List.filter is_generate length]. by rewrite IH.
Qed.

(** X6. With a key, a request whose feed was parsed deals with the client
    library article by article, in the order of the answer: for each
    article a new client under the key, then one request to the model
    gemini-2.5-flash with the text made of its title and description, under
    the fixed instruction with at most 1024 output tokens, temperature 0.5
    and top-p 1; and nothing else. *)
Theorem one_call_per_article w category h root k :
  feed_parsed w h category root →
  GEMINI_API_KEY w = Some k → truthy k = true →
  ∃ news_list evs,
    get_news w category h
    = (Ok (JArray (json_of_article <$> news_list), 200%Z), evs)
    ∧ List.filter is_genai evs = flat_map (calls_for k) news_list.
Proof.
  intros Hp Hw Hk.
  destruct (get_news_calls w category h root Hp)
    as (u & nl & evs & _ & Hrun & _ & _ & _ & Hcalls).
  eexists nl, _. split; [exact Hrun|].
  cbn [List.filter is_genai]. rewrite List.filter_app.
  rewrite (proj1 (Hcalls k Hw Hk)).
  case_bool_decide; cbn [List.filter is_genai]; by rewrite app_nil_r.
Qed.

Lemma one_call_per_article_witness :
  let w := fixed_world (Some (py "key")) (λ u, inr (ok_response u))
             (inr ragged_feed) speechless in
  feed_parsed w [] (py "経済") ragged_feed
  ∧ GEMINI_API_KEY w = Some (py "key")
  ∧ truthy (py "key") = true
  ∧ ∃ news_list evs,
      get_news w (py "経済") []
      = (Ok (JArray (json_of_article <$> news_list), 200%Z), evs)
      ∧ List.filter is_genai evs = flat_map (calls_for (py "key")) news_list.
Proof.
  intros w.
  assert (feed_parsed w [] (py "経済") ragged_feed) as Hp.
  { eapply sample_parsed. by vm_compute. }
  split; [exact Hp|]. split; [reflexivity|]. split; [reflexivity|].
  exact (one_call_per_article w (py "経済") [] ragged_feed (py "key") Hp
           eq_refl eq_refl).
Defined.

(** The text sent for an item whose title holds no text and for an item
    without children: [None] is written out as a word. *)
Example prompt_of_hollow_item :
  let w := fixed_world (Some (py "key")) (λ u, inr (ok_response u))
             (inr ragged_feed) speechless in
  (λ e, match e with
        | GenerateContent _ _ contents _ => contents
        | _ => []
        end) <$> List.filter is_generate (get_news w (py "経済") []).2
  = [ py "記事のタイトル: headline 0" ++ [10%N] ++ py "記事の概要: summary";
      py "記事のタイトル: No Title" ++ [10%N] ++ py "記事の概要: No Title";
      py "記事のタイトル: None" ++ [10%N] ++ py "記事の概要: None";
      py "記事のタイトル: only a title" ++ [10%N]
      ++ py "記事の概要: only a title" ].
Proof. by vm_compute. Qed.

Lemma no_generate_among (l : trace) :
  Forall (λ e, is_genai e = false) l → List.filter is_generate l = [].
Proof.
  intros H. by rewrite <- generate_among_genai, (filter_none _ _ H).
Qed.

(** One call of [chat] from the loop, under a key: the answer it parses is
    the answer given after the history and the new client. *)
Lemma chat_article_answer w prompt content tmp p h k :
  GEMINI_API_KEY w = Some k → truthy k = true →
  let config :=
    {| system_instruction := prompt; max_output_tokens := 1024;
       temperature := tmp; top_p := p |} in
  ∃ rest,
    chat w (generate_request_prompt prompt content tmp p) h
    = (Ok (tags_from
             (generate_content w (h ++ [NewClient {| api_key := k |}])
                {| api_key := k |} (py "gemini-2.5-flash") content config)),
       NewClient {| api_key := k |}
       :: GenerateContent {| api_key := k |} (py "gemini-2.5-flash") content
            config
       :: rest)
    ∧ List.filter is_generate rest = [].
Proof.
  intros Hw Hk config.
  destruct (chat_calls w (generate_request_prompt prompt content tmp p)
              {| author := py "user"; message_content := content |} [] h k
              Hw Hk eq_refl) as (rest & Hrun & Hg & _).
  exists rest. split; [exact Hrun | by apply no_generate_among].
Qed.

(** The loop, request by request: the tags of the [n]-th article it adds
    are made of the answer to the [n]-th request it sends, as the service
    gave it at that moment of the run. *)
Lemma news_loop_answers w k items acc h nl evs :
  GEMINI_API_KEY w = Some k → truthy k = true →
  news_loop w items acc h = (Ok nl, evs) →
  ∃ arts,
    nl = acc ++ arts
    ∧ ∀ n a,
        arts !! n = Some a →
        ∃ pre post,
          evs = pre ++ GenerateContent {| api_key := k |}
                         (py "gemini-2.5-flash") (news_content a)
                         request_config :: post
          ∧ length (List.filter is_generate pre) = n
          ∧ tags a = tags_from
                       (generate_content w (h ++ pre) {| api_key := k |}
                          (py "gemini-2.5-flash") (news_content a)
                          request_config).
Proof.
  intros Hw Hk. revert acc h nl evs.
  induction items as [|[i item] rest IH]; intros acc h nl evs.
  - intros [= <- <-]. exists []. rewrite app_nil_r. split; [done|].
    by intros n a.
  - cbn [news_loop]. case_bool_decide as Hfull.
    + intros [= <- <-]. exists []. rewrite app_nil_r. split; [done|].
      by intros n a.
    + set (t0 := text_or (find (py "title") item) (Some (py "No Title"))).
      set (l0 := text_or (find (py "link") item) (Some (py "#"))).
      set (d0 := text_or (find (py "description") item) t0).
      rewrite (prompt_text_unfold t0 d0).
      remember (prompt_text t0 d0) as content eqn:Hcontent.
      remember system_prompt as prompt eqn:Hprompt.
      intros Hrun.
      destruct (chat_article_answer w prompt content (1 # 2) 1 h k Hw Hk)
        as (more & Hchat & Hmore).
      match type of Hchat with
      | _ = (_, ?l) => remember l as evs1 eqn:Hevs1
      end.
      erewrite bind_ok in Hrun by exact Hchat.
      erewrite bind_ok in Hrun by apply print_run.
      match type of Hrun with
      | context [Print ?l] => generalize dependent l; intros line Hrun
      end.
      destruct (news_loop w rest _ _) as [r evs2] eqn:Hloop.
      rewrite !after_pair in Hrun. injection Hrun as -> <-.
      apply IH in Hloop as (arts & -> & Hat).
      eexists (_ :: arts). split; [by rewrite <- (assoc_L (++))|].
      intros [|n] a Ha.
      * injection Ha as <-.
        exists [NewClient {| api_key := k |}],
               (more ++ Print line :: evs2).
        unfold news_content, request_config. cbn [title description tags].
        rewrite <- Hprompt, <- Hcontent, Hevs1. split_and!; reflexivity.
      * cbn [lookup list_lookup] in Ha.
        destruct (Hat n a Ha) as (pre & post & -> & Hcount & Htags).
        exists (evs1 ++ Print line :: pre), post. split_and!.
        -- by rewrite <- (assoc_L (++)).
        -- rewrite List.filter_app, Hevs1. cbn [List.filter is_generate].
           rewrite Hmore, length_app. cbn [length]. by rewrite Hcount.
        -- rewrite Htags. f_equal. f_equal.
           rewrite <- !(assoc_L (++)). reflexivity.
Qed.

(** X7. With a key, the tags of the [n]-th returned article are what
    [tags_from] makes of the answer the service gave, at that moment of the
    run, to the [n]-th request of the run, which is the request made for
    that article: the parsed text, or no tag when that request raised or
    brought no text. When the service answers by the request alone, the
    tags of an article do not depend on the other articles. *)
Theorem tags_from_own_answer w category h root k :
  feed_parsed w h category root →
  GEMINI_API_KEY w = Some k → truthy k = true →
  ∃ news_list evs,
    get_news w category h
    = (Ok (JArray (json_of_article <$> news_list), 200%Z), evs)
    ∧ (∀ n a,
         news_list !! n = Some a →
         ∃ pre post,
           evs = pre ++ GenerateContent {| api_key := k |}
                          (py "gemini-2.5-flash") (news_content a)
                          request_config :: post
           ∧ length (List.filter is_generate pre) = n
           ∧ tags a = tags_from
                        (generate_content w (h ++ pre) {| api_key := k |}
                           (py "gemini-2.5-flash") (news_content a)
                           request_config))
    ∧ ((∀ hk hk' c model contents config,
          generate_content w hk c model contents config
          = generate_content w hk' c model contents config) →
       Forall (λ a,
                tags a = tags_from
                  (generate_content w [] {| api_key := k |}
                     (py "gemini-2.5-flash") (news_content a)
                     request_config)) news_list).
Proof.
  intros (feed_url & resp & Hc & Hget & Herr & Hparse) Hw Hk.
  destruct (news_loop_spec w (feed_items root) []
              (at_fetch h category feed_url ++ [HttpGet feed_url 15]))
    as (nl & evs & Hloop & _).
  cbn [app] in Hloop.
  destruct (news_loop_answers w k _ _ _ _ _ Hw Hk Hloop)
    as (arts & Heq & Hat).
  cbn [app] in Heq. subst arts.
  eexists nl, _.
  split; [by eapply get_news_of_loop|].
  assert (∀ n a,
            nl !! n = Some a →
            ∃ pre post,
              Print (fetching category feed_url) :: HttpGet feed_url 15
              :: evs ++ (if bool_decide (length nl < 10)
                         then [Print (shortfall (length nl))] else [])
              = pre ++ GenerateContent {| api_key := k |}
                         (py "gemini-2.5-flash") (news_content a)
                         request_config :: post
              ∧ length (List.filter is_generate pre) = n
              ∧ tags a = tags_from
                           (generate_content w (h ++ pre) {| api_key := k |}
                              (py "gemini-2.5-flash") (news_content a)
                              request_config)) as Htie.
  { intros n a Ha.
    destruct (Hat n a Ha) as (pre & post & -> & Hcount & Htags).
    eexists (Print (fetching category feed_url) :: HttpGet feed_url 15
             :: pre), (post ++ _).
    split_and!.
    - cbn [app]. do 2 f_equal. by rewrite <- (assoc_L (++)).
    - exact Hcount.
    - rewrite Htags. f_equal. f_equal. unfold at_fetch.
      rewrite <- !(assoc_L (++)). reflexivity. }
  split; [exact Htie|].
  intros Hstateless. apply Forall_lookup. intros n a Ha.
  destruct (Htie n a Ha) as (pre & post & _ & _ & ->).
  f_equal. apply Hstateless.
Qed.

Lemma tags_from_own_answer_witness :
  let w := alternating_world ragged_feed in
  feed_parsed w [] (py "経済") ragged_feed
  ∧ GEMINI_API_KEY w = Some (py "key")
  ∧ truthy (py "key") = true
  ∧ ∃ news_list evs,
      get_news w (py "経済") []
      = (Ok (JArray (json_of_article <$> news_list), 200%Z), evs)
      ∧ ∀ n a,
          news_list !! n = Some a →
          tags a = if Nat.even n
                   then [py "テクノロジー"; py "AI"; py "新製品"] else [].
Proof.
  intros w.
  assert (feed_parsed w [] (py "経済") ragged_feed) as Hp.
  { exists business_feed, (ok_response business_feed).
    split_and!; [by vm_compute | reflexivity..]. }
  split; [exact Hp|]. split; [reflexivity|]. split; [reflexivity|].
  destruct (tags_from_own_answer w (py "経済") [] ragged_feed (py "key") Hp
              eq_refl eq_refl) as (news_list & evs & Hrun & Htie & _).
  exists news_list, evs. split; [exact Hrun|].
  intros n a Ha.
  destruct (Htie n a Ha) as (pre & post & _ & Hcount & ->).
  cbn [generate_content w alternating_world app]. rewrite Hcount.
  destruct (Nat.even n); by vm_compute.
Defined.

(** The same run, evaluated: the four articles get the tags of the answers
    to the first and third request, and none for the second and fourth. *)
Example alternating_run :
  (λ a, member "tags" a) <$>
    match (get_news (alternating_world ragged_feed) (py "経済") []).1 with
    | Ok (JArray items, _) => items
    | _ => []
    end
  = [ Some (JArray (JString <$> [py "テクノロジー"; py "AI"; py "新製品"]));
      Some (JArray []);
      Some (JArray (JString <$> [py "テクノロジー"; py "AI"; py "新製品"]));
      Some (JArray []) ].
Proof. by vm_compute. Qed.

(** X8. No request to the view sends more than 15 requests to the
    service; when an array is returned, there were as many requests as
    articles with a key, and none without. *)
Theorem service_requests_bounded w category h :
  length (List.filter is_generate (get_news w category h).2) ≤ 15
  ∧ ∀ items status,
      (get_news w category h).1 = Ok (JArray items, status) →
      length (List.filter is_generate (get_news w category h).2)
      = if key_missing (GEMINI_API_KEY w) then 0 else length items.
Proof.
  destruct (get_news_cases w category h)
    as [[_ H]|[(u & msg & line & _ & H)
              |[(u & resp & e & _ & _ & _ & _ & _ & H)
               |(u & root & _ & _ & _ & Hp & _)]]].
  - rewrite H. cbn. split; [lia | by intros ? ? [=]].
  - rewrite H. cbn. split; [lia | by intros ? ? [=]].
  - rewrite H. cbn. split; [lia | by intros ? ? [=]].
  - destruct (get_news_calls w category h root Hp)
      as (u' & nl & evs & _ & Hrun & Hlen & _ & Hnone & Hcalls).
    rewrite Hrun. cbn [fst snd List.filter is_generate].
    assert (List.filter is_generate
              (evs ++ (if bool_decide (length nl < 10)
                       then [Print (shortfall (length nl))] else []))
            = List.filter is_generate evs) as ->.
    { rewrite List.filter_app.
      case_bool_decide; cbn [List.filter is_generate]; by rewrite app_nil_r. }
    rewrite <- generate_among_genai.
    assert (length (List.filter is_generate (List.filter is_genai evs))
            = if key_missing (GEMINI_API_KEY w) then 0 else length nl) as ->.
    { destruct (key_missing (GEMINI_API_KEY w)) eqn:Hk.
      - by rewrite Hnone.
      - destruct (GEMINI_API_KEY w) as [k|] eqn:Hw; [|done].
        apply negb_false_iff in Hk.
        rewrite (proj1 (Hcalls k eq_refl Hk)). apply generate_per_article. }
    split.
    + destruct (key_missing (GEMINI_API_KEY w)); lia.
    + intros items status [= <- _]. by rewrite length_fmap.
Qed.

Lemma service_requests_bounded_witness :
  let w := fixed_world (Some (py "key")) (λ u, inr (ok_response u))
             (inr long_feed) unreachable in
  ∃ items,
    (get_news w (py "経済") []).1 = Ok (JArray items, 200%Z)
    ∧ length (List.filter is_generate (get_news w (py "経済") []).2)
      = length items
    ∧ length items = 15.
Proof.
  intros w. eexists. split; [by vm_compute|]. split; [|reflexivity].
  apply (proj2 (service_requests_bounded w (py "経済") []) _ 200%Z).
  by vm_compute.
Defined.

(** X9. In every array the view returns, the tags of every object are an
    array of strings, each of them not empty, without a comma and without
    whitespace at either end. *)
Theorem response_tags_good w category h items status :
  (get_news w category h).1 = Ok (JArray items, status) →
  Forall (λ j, ∃ tj, member "tags" j = Some tj ∧ good_tags tj) items.
Proof.
  intros Hrun.
  destruct (get_news_cases w category h)
    as [[_ H]|[(u & msg & line & _ & H)
              |[(u & resp & e & _ & _ & _ & _ & _ & H)
               |(u & root & _ & _ & _ & Hp & _)]]];
    [by rewrite H in Hrun..|].
  destruct (get_news_calls w category h root Hp)
    as (u' & nl & evs & _ & H & _ & Hgood & _).
  rewrite H in Hrun. injection Hrun as <- _.
  apply Forall_fmap. eapply Forall_impl; [exact Hgood|].
  intros a Ha. cbn [compose]. exists (JArray (JString <$> tags a)).
  split; [apply member_tags | by exists (tags a)].
Qed.

Lemma response_tags_good_witness :
  let w := fixed_world (Some (py "key")) (λ u, inr (ok_response u))
             (inr ragged_feed) tagging in
  ∃ items,
    (get_news w (py "経済") []).1 = Ok (JArray items, 200%Z)
    ∧ length items = 4
    ∧ Forall (λ j, ∃ tj, member "tags" j = Some tj ∧ good_tags tj) items.
Proof.
  intros w. eexists. split; [by vm_compute|]. split; [reflexivity|].
  apply (response_tags_good w (py "経済") [] _ 200%Z). by vm_compute.
Defined.



(** X11. The service is asked only after the feed: an answer other than
    200 was produced without any call of the client library, and before
    any such call the view has printed its first line and requested the
    feed. *)
Theorem service_only_after_feed w category h :
  (∀ body status,
     (get_news w category h).1 = Ok (body, status) → status ≠ 200%Z →
     Forall (λ e, is_genai e = false) (get_news w category h).2)
  ∧ (∀ pre e post,
       (get_news w category h).2 = pre ++ e :: post → is_genai e = true →
       ∃ feed_url pre',
         RSS_FEEDS !! category = Some feed_url
         ∧ pre = Print (fetching category feed_url) :: HttpGet feed_url 15
                 :: pre').
Proof.
  destruct (get_news_cases w category h)
    as [[Hn H]|[(u & msg & line & Hu & H)
               |[(u & resp & x & Hu & _ & _ & _ & _ & H)
                |(u & root & nl & evs & Hu & Hp & H & _)]]];
    rewrite H; cbn [fst snd]; split.
  - intros _ _ _ _. constructor.
  - intros pre e post Heq. by destruct pre.
  - intros _ _ _ _. by repeat constructor.
  - intros pre e post Heq He.
    assert (e ∈ [Print (fetching category u); HttpGet u 15; Print line])
      as Hin by (rewrite Heq; set_solver).
    repeat (apply elem_of_cons in Hin as [->|Hin]; [discriminate He|]).
    by apply elem_of_nil in Hin.
  - by intros body status [=].
  - intros pre e post Heq He.
    assert (e ∈ [Print (fetching category u); HttpGet u 15])
      as Hin by (rewrite Heq; set_solver).
    repeat (apply elem_of_cons in Hin as [->|Hin]; [discriminate He|]).
    by apply elem_of_nil in Hin.
  - by intros body status [= _ <-] Hne.
  - intros pre e post Heq He.
    destruct pre as [|x [|y pre']].
    + injection Heq as <- _. discriminate He.
    + injection Heq as _ <- _. discriminate He.
    + injection Heq as <- <- _. by exists u, pre'.
Qed.

Lemma service_only_after_feed_witness :
  let w := fixed_world (Some (py "key")) (λ u, inr (not_found u))
             (inr long_feed) tagging in
  (get_news w (py "経済") []).1
  = Ok (json_error
          (py "Failed to fetch RSS feed: 404 Client Error: Not Found for url: "
           ++ business_feed), 500%Z)
  ∧ Forall (λ e, is_genai e = false) (get_news w (py "経済") []).2.
Proof.
  intros w.
  assert ((get_news w (py "経済") []).1
          = Ok (json_error
                  (py "Failed to fetch RSS feed: 404 Client Error: Not Found for url: "
                   ++ business_feed), 500%Z)) as Hrun by by vm_compute.
  split; [exact Hrun|].
  apply (proj1 (service_only_after_feed w (py "経済") []) _ _ Hrun). lia.
Defined.

(** X12. [chat] reads of its prompt the context, the three numbers and the
    content of the first message, and nothing else: two prompts that agree
    on these are treated alike, whatever their authors and their further
    messages. *)
Theorem chat_reads_first_message w rp rp' m ms m' ms' h :
  messages rp = m :: ms → messages rp' = m' :: ms' →
  message_content m = message_content m' →
  context rp = context rp' →
  maxOutputTokens rp = maxOutputTokens rp' →
  prompt_temperature rp = prompt_temperature rp' →
  topP rp = topP rp' →
  chat w rp h = chat w rp' h.
Proof.
  intros Hm Hm' Hc Hctx Hmax Htmp Htop.
  destruct (key_missing (GEMINI_API_KEY w)) eqn:Hk.
  { by rewrite !chat_no_key. }
  destruct (GEMINI_API_KEY w) as [k|] eqn:Hw; [|done].
  apply negb_false_iff in Hk.
  rewrite (chat_with_key w rp m ms h k Hw Hk Hm).
  rewrite (chat_with_key w rp' m' ms' h k Hw Hk Hm').
  by rewrite Hc, Hctx, Hmax, Htmp, Htop.
Qed.

Lemma chat_reads_first_message_witness :
  let w := fixed_world (Some (py "key")) (λ u, inr (ok_response u))
             (inr long_feed) tagging in
  let first := {| author := py "user"; message_content := py "news" |} in
  let other := {| author := py "model"; message_content := py "news" |} in
  let extra := {| author := py "user"; message_content := py "more" |} in
  chat w (generate_request_prompt (py "tags, please") (py "news") (1 # 2) 1)
    []
  = chat w {| context := py "tags, please"; maxOutputTokens := 1024;
              messages := [other; extra]; prompt_temperature := 1 # 2;
              topP := 1 |} [].
Proof.
  intros w first other extra.
  exact (chat_reads_first_message w
           (generate_request_prompt (py "tags, please") (py "news") (1 # 2) 1)
           {| context := py "tags, please"; maxOutputTokens := 1024;
              messages := [other; extra]; prompt_temperature := 1 # 2;
              topP := 1 |}
           first [] other [extra] []
           eq_refl eq_refl eq_refl eq_refl eq_refl eq_refl eq_refl).
Defined.
